(** * app.py: a periodic telemetry forwarder

    A shallow embedding of [app.py] and the properties of its
    specification.  The script validates a device connection string,
    selects a simulated or a live (serial) sensor source, and then loops
    forever: one record per tick, wrapped in a message envelope, followed
    by a fixed sleep.

    Python text ([str]) is Rocq's [string]; the dictionary built by the
    formatter is a [gmap string string]; calls into the collaborators
    (the cloud client, the serial library, the console) are recorded, in
    program order, in a trace of events, and what those calls answer is
    read from a [world]. *)

From Stdlib Require Import ZArith Ascii String List Bool Lia.
From stdpp Require Import base option list strings gmap.

Local Open Scope string_scope.
Local Open Scope list_scope.

(** ** Text *)

Module Text.

(** The line feed, the only character that [.] of Python's [re] does not
    match when no flag is given. *)
Definition LF : ascii := "010"%char.

(** Membership of a character in a text. *)
Fixpoint occurs (c : ascii) (s : string) : bool :=
  match s with
  | EmptyString => false
  | String x s' => Ascii.eqb x c || occurs c s'
  end.

(** Number of occurrences of a character. *)
Fixpoint count (c : ascii) (s : string) : nat :=
  match s with
  | EmptyString => 0
  | String x s' => (if Ascii.eqb x c then 1 else 0) + count c s'
  end.

(** [str.lower] on one character: the letters [A]..[Z] move to [a]..[z],
    every other character stays.  Text is held as single-byte characters,
    so this is the case folding of ASCII, the one that decides a comparison
    with ["true"]. *)
Definition lower_char (c : ascii) : ascii :=
  let n := nat_of_ascii c in
  if (65 <=? n)%nat && (n <=? 90)%nat then ascii_of_nat (n + 32) else c.

(** [str.lower]. *)
Fixpoint lower (s : string) : string :=
  match s with
  | EmptyString => EmptyString
  | String c s' => String (lower_char c) (lower s')
  end.

(** [s.split(sep)] for a one-character separator: the text is cut at every
    occurrence of [sep]; the result is never empty, and empty fields are
    kept. *)
Fixpoint str_split (sep : ascii) (s : string) : list string :=
  match s with
  | EmptyString => [EmptyString]
  | String c s' =>
      if Ascii.eqb c sep then EmptyString :: str_split sep s'
      else match str_split sep s' with
           | [] => [String c EmptyString]
           | field :: fields => String c field :: fields
           end
  end.

End Text.

(** ** The fragment of [re] the script uses *)

Module Re.

(** One position of a pattern: a literal character or the dot. *)
Inductive atom : Type :=
| Lit (c : ascii)
| Dot.

(** A pattern is a sequence of atoms, each either plain or starred. *)
Inductive item : Type :=
| One (a : atom)
| Star (a : atom).

Definition atom_of_char (c : ascii) : atom :=
  if Ascii.eqb c "."%char then Dot else Lit c.

(** Reading a pattern text: [.] is the dot, a following [*] stars the
    atom before it, every other character stands for itself. *)
Fixpoint compile (p : string) : list item :=
  match p with
  | EmptyString => []
  | String c p' =>
      match p' with
      | String "*"%char p'' => Star (atom_of_char c) :: compile p''
      | _ => One (atom_of_char c) :: compile p'
      end
  end.

Definition accepts (a : atom) (c : ascii) : bool :=
  match a with
  | Lit x => Ascii.eqb x c
  | Dot => negb (Ascii.eqb c Text.LF)
  end.

(** Does some prefix of [s] match the pattern?  A starred atom tries every
    number of repetitions, so the answer is that of a backtracking matcher
    whatever its preference between them. *)
Fixpoint match_here (re : list item) : string -> bool :=
  match re with
  | [] => fun _ => true
  | One a :: re' => fun s =>
      match s with
      | String c s' => accepts a c && match_here re' s'
      | EmptyString => false
      end
  | Star a :: re' =>
      fix star (s : string) : bool :=
        match_here re' s ||
        match s with
        | String c s' => accepts a c && star s'
        | EmptyString => false
        end
  end.

(** [re.search]: a match may start at any position of the text. *)
Fixpoint search_from (re : list item) (s : string) : bool :=
  match_here re s ||
  match s with
  | String _ s' => search_from re s'
  | EmptyString => false
  end.

Definition search (pattern : string) (s : string) : bool :=
  search_from (compile pattern) s.

(** The language of a pattern, stated declaratively. *)
Inductive all_accepted (a : atom) : string -> Prop :=
| all_nil : all_accepted a EmptyString
| all_cons c s : accepts a c = true -> all_accepted a s ->
                 all_accepted a (String c s).

Inductive matches : list item -> string -> Prop :=
| matches_nil : matches [] EmptyString
| matches_one a re c s :
    accepts a c = true -> matches re s -> matches (One a :: re) (String c s)
| matches_star a re x s :
    all_accepted a x -> matches re s -> matches (Star a :: re) (x +:+ s).

End Re.

(** ** The script *)

Module App.

Import Text.

(** *** Exceptions *)

(** The exceptions that can travel through the script.  [LibraryError]
    stands for whatever subclass of [Exception] a collaborator raises
    (a serial or a connection failure); [KeyboardInterrupt] and
    [SystemExit] derive from [BaseException] only. *)
Inductive exn : Type :=
| TypeError
| IndexError
| NameError
| UnboundLocalError
| LibraryError (name : string)
| KeyboardInterrupt
| SystemExit (code : Z).

(** [isinstance(e, Exception)], the test of [except Exception]. *)
Definition is_Exception (e : exn) : bool :=
  match e with
  | KeyboardInterrupt | SystemExit _ => false
  | _ => true
  end.

(** A computation that returns or raises. *)
Definition result (A : Type) : Type := exn + A.

Definition rbind {A B : Type} (r : result A) (k : A -> result B) : result B :=
  match r with
  | inl e => inl e
  | inr a => k a
  end.

(** [l[i]] for a non-negative index. *)
Definition subscript {A : Type} (l : list A) (i : nat) : result A :=
  match l !! i with
  | Some x => inr x
  | None => inl IndexError
  end.

(** *** Values *)

(** What [readline] may hand to the formatter: text, or a byte string. *)
Inductive pyval : Type :=
| PyStr (s : string)
| PyBytes (b : string).

(** The device client object returned for a connection string. *)
Inductive client : Type :=
| Client (connection_string : option string).

(** An argument of [print]. *)
Inductive printable : Type :=
| PStr (s : string)
| PBool (b : bool)
| PList (l : list string)
| PDict (d : gmap string string)
| PFormat (fmt : string) (e : exn).   (* fmt % e *)

(** *** Events: the calls that leave the script *)

Inductive event : Type :=
| EPrint (args : list printable)
| ECreateClient (connection_string : option string)
| EConnect
| ESerial (port : string) (baudrate : Z) (handle : nat)
| EReadline (handle : nat)
| EMockTempHum
| EMessage (data : gmap string string)
| ESetAttr (attribute value : string)
| ESendMessage
| ESleep (seconds : Z)
| EInput (prompt : string)
| EShutdown.

(** *** The world: what the collaborators answer *)

Record world : Type := World {
  (* os.getenv *)
  getenv : string -> option string;
  (* sys.argv *)
  argv : list string;
  (* IoTHubDeviceClient.create_from_connection_string: [None] when a
     client is returned *)
  create_client : option string -> option exn;
  (* device_client.connect *)
  connect : option exn;
  (* serial.Serial, by the number of ports opened before *)
  serial_open : nat -> option exn;
  (* readline, by handle and by the number of lines read from it before *)
  serial_readline : nat -> nat -> result pyval;
  (* generate_mock_temp_hum_data, by the number of calls before *)
  mock_temp_hum : nat -> gmap string string;
  (* input *)
  console_input : string
}.

(** *** State *)

Record state : Type := State {
  trace : list event;               (* in program order *)
  SIMULATE_DATA : option bool;      (* the global, unset at first *)
  device_client : option client;    (* the local of main *)
  serial1 : option nat;             (* the local of send_recurring_telemetry *)
  handles : list nat;               (* lines read so far, per opened port *)
  mock_calls : nat
}.

Definition initial : state :=
  {| trace := []; SIMULATE_DATA := None; device_client := None;
     serial1 := None; handles := []; mock_calls := 0 |}.

Definition with_trace (tr : list event) (s : state) : state :=
  {| trace := tr; SIMULATE_DATA := SIMULATE_DATA s;
     device_client := device_client s; serial1 := serial1 s;
     handles := handles s; mock_calls := mock_calls s |}.

Definition with_SIMULATE_DATA (b : bool) (s : state) : state :=
  {| trace := trace s; SIMULATE_DATA := Some b;
     device_client := device_client s; serial1 := serial1 s;
     handles := handles s; mock_calls := mock_calls s |}.

Definition with_device_client (c : client) (s : state) : state :=
  {| trace := trace s; SIMULATE_DATA := SIMULATE_DATA s;
     device_client := Some c; serial1 := serial1 s;
     handles := handles s; mock_calls := mock_calls s |}.

Definition with_serial1 (h : nat) (s : state) : state :=
  {| trace := trace s; SIMULATE_DATA := SIMULATE_DATA s;
     device_client := device_client s; serial1 := Some h;
     handles := handles s; mock_calls := mock_calls s |}.

Definition with_handles (hs : list nat) (s : state) : state :=
  {| trace := trace s; SIMULATE_DATA := SIMULATE_DATA s;
     device_client := device_client s; serial1 := serial1 s;
     handles := hs; mock_calls := mock_calls s |}.

Definition with_mock_calls (n : nat) (s : state) : state :=
  {| trace := trace s; SIMULATE_DATA := SIMULATE_DATA s;
     device_client := device_client s; serial1 := serial1 s;
     handles := handles s; mock_calls := n |}.

(** *** The monad of the script *)

(** A run returns, raises, or is still inside [while True] when the
    fuel (a number of loop iterations) is used up. *)
Inductive outcome (A : Type) : Type :=
| Ret (a : A)
| Raise (e : exn)
| Spin.
Arguments Ret {A} a.
Arguments Raise {A} e.
Arguments Spin {A}.

Definition M (A : Type) : Type := state -> outcome A * state.

Definition ret {A : Type} (a : A) : M A := fun s => (Ret a, s).

Definition raise {A : Type} (e : exn) : M A := fun s => (Raise e, s).

Definition spin {A : Type} : M A := fun s => (Spin, s).

Definition bind {A B : Type} (m : M A) (k : A -> M B) : M B :=
  fun s =>
    match m s with
    | (Ret a, s') => k a s'
    | (Raise e, s') => (Raise e, s')
    | (Spin, s') => (Spin, s')
    end.

Declare Scope py_scope.
Delimit Scope py_scope with py.
Bind Scope py_scope with M.
Notation "x <- m ;; k" := (bind m (fun x => k))
  (at level 100, m at next level, k at level 200, right associativity)
  : py_scope.
Notation "m ;; k" := (bind m (fun _ => k))
  (at level 100, k at level 200, right associativity) : py_scope.
Local Open Scope py_scope.

Definition lift {A : Type} (r : result A) : M A :=
  match r with
  | inl e => raise e
  | inr a => ret a
  end.

Definition emit (ev : event) : M unit :=
  fun s => (Ret tt, with_trace (trace s ++ [ev]) s).

Definition get {A : Type} (f : state -> A) : M A := fun s => (Ret (f s), s).

Definition put (f : state -> state) : M unit := fun s => (Ret tt, f s).

(** [try: body except Exception as e: handler(e)]. *)
Definition try_except {A : Type} (body : M A) (handler : exn -> M A) : M A :=
  fun s =>
    match body s with
    | (Raise e, s') => if is_Exception e then handler e s' else (Raise e, s')
    | other => other
    end.

(** [for x in l: body(x)]. *)
Fixpoint for_each {A : Type} (l : list A) (body : A -> M unit) : M unit :=
  match l with
  | [] => ret tt
  | x :: l' => body x ;; for_each l' body
  end.

(** [while True: body], for [fuel] iterations. *)
Fixpoint while_True (fuel : nat) (body : M unit) : M unit :=
  match fuel with
  | O => spin
  | S fuel' => body ;; while_True fuel' body
  end.

(** *** Constants of the script *)

Definition MESSAGE_TIMESPAN : Z := 2000.

Definition connection_string_variable : string :=
  "IOTHUB_DEVICE_CONNECTION_STRING".

Definition connection_string_pattern : string :=
  "HostName=.*;DeviceId=.*;".

Definition serial_port : string := "/dev/ttyACM0".

Definition quit_prompt : string := "Press Q to quit" +:+ String LF "".

(** *** Pure functions of the script *)

(** [is_correct_connection_string]; the global it reads is its argument.
    [re.search] refuses [None] with a [TypeError]. *)
Definition is_correct_connection_string
    (CONNECTION_STRING : option string) : result bool :=
  match CONNECTION_STRING with
  | None => inl TypeError
  | Some s =>
      if Re.search connection_string_pattern s then inr true else inr false
  end.

(** [format_message].  [data.split(",")] with a text separator exists on
    text only; on a byte string it is a [TypeError]. *)
Definition format_message (data : pyval) : result (gmap string string) :=
  match data with
  | PyBytes _ => inl TypeError
  | PyStr s =>
      let data_arr := str_split ","%char s in
      rbind (subscript data_arr 0) (fun gas =>
      rbind (subscript data_arr 1) (fun co2 =>
      rbind (subscript data_arr 2) (fun tvoc =>
      inr (<["tvoc" := tvoc]> (<["co2" := co2]> (<["gas" := gas]> ∅))))))
  end.

(** Lines 39 to 42 of [main]: the value given to [SIMULATE_DATA]. *)
Definition select_mode (sys_argv : list string) : result bool :=
  if (1 <? length sys_argv)%nat
  then rbind (subscript sys_argv 1) (fun a => inr (String.eqb (lower a) "true"))
  else inr true.

(** *** The collaborators and the coroutines *)

Section Script.

Variable w : world.

Definition print (args : list printable) : M unit := emit (EPrint args).

Definition os_getenv (name : string) : M (option string) :=
  ret (getenv w name).

Definition sys_exit {A : Type} (code : Z) : M A := raise (SystemExit code).

Definition create_from_connection_string (cs : option string) : M client :=
  emit (ECreateClient cs) ;;
  match create_client w cs with
  | Some e => raise e
  | None => ret (Client cs)
  end.

Definition client_connect (c : client) : M unit :=
  emit EConnect ;;
  match connect w with
  | Some e => raise e
  | None => ret tt
  end.

(** [device_client.shutdown()]: the call is made and its result is
    dropped. *)
Definition client_shutdown (c : client) : M unit := emit EShutdown.

(** [serial.Serial(port, baudrate)]: every call opens the port anew and
    yields a fresh handle. *)
Definition serial_Serial (port : string) (baudrate : Z) : M nat :=
  hs <- get handles ;;
  emit (ESerial port baudrate (length hs)) ;;
  match serial_open w (length hs) with
  | Some e => raise e
  | None => put (with_handles (hs ++ [0%nat])) ;; ret (length hs)
  end.

Definition readline (h : nat) : M pyval :=
  hs <- get handles ;;
  emit (EReadline h) ;;
  put (with_handles (<[h := S (default 0%nat (hs !! h))]> hs)) ;;
  lift (serial_readline w h (default 0%nat (hs !! h))).

(** [generate_mock_temp_hum_data] lives in [mock_data_sender], outside
    this file: the record it returns is the world's. *)
Definition generate_mock_temp_hum_data : M (gmap string string) :=
  n <- get mock_calls ;;
  emit EMockTempHum ;;
  put (with_mock_calls (S n)) ;;
  ret (mock_temp_hum w n).

Definition time_sleep (seconds : Z) : M unit := emit (ESleep seconds).

Definition input (prompt : string) : M string :=
  emit (EInput prompt) ;; ret (console_input w).

Definition read_SIMULATE_DATA : M bool :=
  fun s =>
    match SIMULATE_DATA s with
    | Some b => (Ret b, s)
    | None => (Raise NameError, s)
    end.

Definition read_serial1 : M nat :=
  fun s =>
    match serial1 s with
    | Some h => (Ret h, s)
    | None => (Raise UnboundLocalError, s)
    end.

Definition read_device_client : M client :=
  fun s =>
    match device_client s with
    | Some c => (Ret c, s)
    | None => (Raise UnboundLocalError, s)
    end.

(** [send_data]: the call of [send_message] is commented out. *)
Definition send_data (telemetry_data : gmap string string)
    (device_client : client) : M unit :=
  print [PDict telemetry_data] ;;
  emit (EMessage telemetry_data) ;;
  emit (ESetAttr "content_encoding" "utf-8") ;;
  emit (ESetAttr "content_type" "application/json").

(** The body of [for i in range(0, 15)]. *)
Definition warm_up (i : nat) : M unit :=
  print [PStr "Reading data from serial port"] ;;
  h <- serial_Serial serial_port 9600 ;;
  put (with_serial1 h) ;;
  h' <- read_serial1 ;;
  _ <- readline h' ;;
  ret tt.

(** The body of [while True]. *)
Definition tick (device_client : client) : M unit :=
  simulate <- read_SIMULATE_DATA ;;
  (if simulate
   then
     print [PStr "Simulating data"] ;;
     data <- generate_mock_temp_hum_data ;;
     send_data data device_client
   else
     h <- read_serial1 ;;
     line <- readline h ;;
     data <- lift (format_message line) ;;
     send_data data device_client) ;;
  time_sleep (MESSAGE_TIMESPAN / 1000).

Definition send_recurring_telemetry (fuel : nat) (device_client : client)
    : M unit :=
  client_connect device_client ;;
  simulate <- read_SIMULATE_DATA ;;
  (if negb simulate then for_each (seq 0 15) warm_up else ret tt) ;;
  while_True fuel (tick device_client).

(** Lines 38 to 48 of [main], up to the call of the loop task. *)
Definition main_prelude (CONNECTION_STRING : option string) : M client :=
  simulate <- lift (select_mode (argv w)) ;;
  put (with_SIMULATE_DATA simulate) ;;
  simulate' <- read_SIMULATE_DATA ;;
  print [PStr "SIMULATE_DATA: "; PBool simulate'] ;;
  c <- create_from_connection_string CONNECTION_STRING ;;
  put (with_device_client c) ;;
  print [PStr "argv: "; PList (argv w)] ;;
  print [PStr "IoTHub Device Client Recurring Telemetry Sample"] ;;
  print [PStr "Press Ctrl+C to exit"] ;;
  ret c.

(** Lines 51 to 55 of [main], after the loop task has returned. *)
Definition main_quit : M unit :=
  selection <- input quit_prompt ;;
  if String.eqb selection "Q" || String.eqb selection "q"
  then
    c <- read_device_client ;;
    client_shutdown c ;;
    print [PStr "Quitting..."]
  else ret tt.

(** Lines 56 to 59 of [main]. *)
Definition main_handler (e : exn) : M unit :=
  print [PFormat "Unexpected error %s " e] ;;
  c <- read_device_client ;;
  client_shutdown c ;;
  print [PStr "Shutting down device client"].

Definition main (fuel : nat) (CONNECTION_STRING : option string) : M unit :=
  try_except
    (c <- main_prelude CONNECTION_STRING ;;
     send_recurring_telemetry fuel c ;;
     main_quit)
    main_handler.

(** The module body, top to bottom. *)
Definition script (fuel : nat) : M unit :=
  CONNECTION_STRING <- os_getenv connection_string_variable ;;
  correct <- lift (is_correct_connection_string CONNECTION_STRING) ;;
  (if negb correct
   then
     print [PStr "Device connection string is not correct."] ;;
     sys_exit 0
   else ret tt) ;;
  print [PStr "Device connection string is correct."] ;;
  main fuel CONNECTION_STRING.

End Script.

(** *** The process *)

(** How the interpreter leaves the script: an exit status, a traceback for
    an exception nobody caught, or not yet. *)
Inductive ending : Type :=
| Exited (code : Z)
| Traceback (e : exn)
| Running.

Definition ending_of {A : Type} (o : outcome A) : ending :=
  match o with
  | Ret _ => Exited 0
  | Raise (SystemExit code) => Exited code
  | Raise e => Traceback e
  | Spin => Running
  end.

Definition run (w : world) (fuel : nat) : ending * list event :=
  let (o, s) := script w fuel initial in (ending_of o, trace s).

Definition final_state (w : world) (fuel : nat) : state :=
  snd (script w fuel initial).

(** *** Reading a trace *)

Definition is_ESerial (ev : event) : bool :=
  match ev with ESerial _ _ _ => true | _ => false end.

Definition is_EConnect (ev : event) : bool :=
  match ev with EConnect => true | _ => false end.

Definition is_ESendMessage (ev : event) : bool :=
  match ev with ESendMessage => true | _ => false end.

Definition count_events (p : event -> bool) (tr : list event) : nat :=
  length (List.filter p tr).

(** The records handed to [Message], oldest first. *)
Definition messages (tr : list event) : list (gmap string string) :=
  omap (fun ev => match ev with EMessage d => Some d | _ => None end) tr.

End App.

(** ** What the specification speaks of *)

Module Spec.

Import Text App.

(** A text that holds [HostName=X;DeviceId=Y;] somewhere, with both
    fields satisfying [P]. *)
Definition has_fields (P : string -> Prop) (s : string) : Prop :=
  exists pre X Y post,
    s = pre +:+ "HostName=" +:+ X +:+ ";DeviceId=" +:+ Y +:+ ";" +:+ post
    /\ P X /\ P Y.

Definition nonempty (x : string) : Prop := x <> "".

Definition one_line (x : string) : Prop := occurs LF x = false.

(** Two characters that are equal, or the capital and the small form of
    one letter. *)
Definition capital (c : ascii) : Prop :=
  (65 <= nat_of_ascii c <= 90)%nat.

Definition same_letter (x y : ascii) : Prop :=
  x = y
  \/ (capital x /\ nat_of_ascii y = (nat_of_ascii x + 32)%nat)
  \/ (capital y /\ nat_of_ascii x = (nat_of_ascii y + 32)%nat).

Fixpoint same_ignoring_case (a b : string) : Prop :=
  match a, b with
  | EmptyString, EmptyString => True
  | String x a', String y b' => same_letter x y /\ same_ignoring_case a' b'
  | _, _ => False
  end.

(** The record [{gas: a, co2: b, tvoc: c}]. *)
Definition reading (a b c : string) : gmap string string :=
  {[ "gas" := a; "co2" := b; "tvoc" := c ]}.

(** The state in which [main] starts: validation has printed its
    confirmation. *)
Definition validated : state :=
  with_trace [EPrint [PStr "Device connection string is correct."]] initial.

(** What the handler of [main] adds to the trace. *)
Definition handler_events (e : exn) : list event :=
  [EPrint [PFormat "Unexpected error %s " e]; EShutdown;
   EPrint [PStr "Shutting down device client"]].

(** What one call of [send_data] adds to the trace. *)
Definition send_data_events (d : gmap string string) : list event :=
  [EPrint [PDict d]; EMessage d;
   ESetAttr "content_encoding" "utf-8";
   ESetAttr "content_type" "application/json"].

(** A computation keeps a relation between the state it starts from and
    the state it leaves. *)
Definition keeps {A : Type} (R : state -> state -> Prop) (m : M A) : Prop :=
  forall s, R s (snd (m s)).

(** The trace grows, and only by events that satisfy [P]. *)
Definition grows_by (P : event -> Prop) (s s' : state) : Prop :=
  exists tr, trace s' = (trace s ++ tr)%list /\ Forall P tr.

(** The global flag is left as it was. *)
Definition same_mode (s s' : state) : Prop :=
  SIMULATE_DATA s' = SIMULATE_DATA s.

(** The local [device_client] of [main] is left as it was. *)
Definition same_client (s s' : state) : Prop :=
  device_client s' = device_client s.

(** The events that only the handler of [main] produces. *)
Definition is_handler_event (ev : event) : bool :=
  match ev with
  | EShutdown => true
  | EPrint [PFormat _ _] => true
  | _ => false
  end.

(** The events of the quit path of [main]: the prompt and the farewell. *)
Definition is_quit_event (ev : event) : bool :=
  match ev with
  | EInput _ => true
  | EPrint [PStr s] => String.eqb s "Quitting..."
  | _ => false
  end.

(** A computation that never returns normally. *)
Definition never_returns {A : Type} (m : M A) : Prop :=
  forall s a, fst (m s) <> Ret a.

(** A world in which no collaborator fails. *)
Definition calm (env : option string) (args : list string)
    (lines : nat -> nat -> result pyval) : world :=
  {| getenv := fun name =>
       if String.eqb name connection_string_variable then env else None;
     argv := args;
     create_client := fun _ => None;
     connect := None;
     serial_open := fun _ => None;
     serial_readline := lines;
     mock_temp_hum := fun _ => {[ "temp" := "21"; "hum" := "40" ]};
     console_input := "Q" |}.

(** A sensor whose line tells the port it was read from (a letter, [A] for
    the first one opened) and how many lines were read from that port
    before it (a digit). *)
Definition tagged_line (h n : nat) : result pyval :=
  inr (PyStr (String (ascii_of_nat (65 + h))
                ("," +:+ String (ascii_of_nat (48 + n))
                   (",0" +:+ String LF "")))).

(** A sensor that sends two fields only. *)
Definition short_line (h n : nat) : result pyval := inr (PyStr "400,12").

Definition good_connection_string : string :=
  "HostName=hub.example.net;DeviceId=pi;SharedAccessKey=k".

(** Live mode on a sensor that answers, with a correct connection
    string. *)
Definition live_world : world :=
  calm (Some good_connection_string) ["app.py"; "false"] tagged_line.

(** Live mode on a sensor that sends too few fields. *)
Definition short_world : world :=
  calm (Some good_connection_string) ["app.py"; "false"] short_line.

(** Simulated mode, asked for in capitals. *)
Definition simulated_world : world :=
  calm (Some good_connection_string) ["app.py"; "TRUE"] tagged_line.

(** The environment variable is not set. *)
Definition absent_world : world :=
  calm None ["app.py"] tagged_line.

(** The connection string of the end-to-end scenario. *)
Definition malformed_world : world :=
  calm (Some "Foo=1") ["app.py"] tagged_line.

End Spec.

(** ** Further vocabulary for runs *)

Module Behaviour.

Import Text App Spec.

Definition is_ECreateClient (ev : event) : bool :=
  match ev with ECreateClient _ => true | _ => false end.

Definition is_EShutdown (ev : event) : bool :=
  match ev with EShutdown => true | _ => false end.

Definition is_ESleep (ev : event) : bool :=
  match ev with ESleep _ => true | _ => false end.

(** The calls into the serial library. *)
Definition is_serial_event (ev : event) : bool :=
  match ev with
  | ESerial _ _ _ | EReadline _ => true
  | _ => false
  end.

(** The events that neither create a client nor connect one. *)
Definition is_plain (ev : event) : bool :=
  negb (is_EConnect ev || is_ECreateClient ev).

(** Does the module body get past its check of the connection string? *)
Definition passes_validation (w : world) : bool :=
  match getenv w connection_string_variable with
  | Some cs => Re.search connection_string_pattern cs
  | None => false
  end.

(** Does [main] get a client? *)
Definition client_created (w : world) : bool :=
  passes_validation w &&
  match create_client w (getenv w connection_string_variable) with
  | None => true
  | Some _ => false
  end.

(** What [main] adds to the trace before the loop task, when the client is
    created. *)
Definition prelude_events (w : world) (simulate : bool) (cs : option string)
    : list event :=
  [EPrint [PStr "SIMULATE_DATA: "; PBool simulate];
   ECreateClient cs;
   EPrint [PStr "argv: "; PList (argv w)];
   EPrint [PStr "IoTHub Device Client Recurring Telemetry Sample"];
   EPrint [PStr "Press Ctrl+C to exit"]].

(** What the k-th tick adds in simulated mode. *)
Definition simulated_tick_events (w : world) (k : nat) : list event :=
  [EPrint [PStr "Simulating data"]; EMockTempHum]
  ++ send_data_events (mock_temp_hum w k) ++ [ESleep 2].

(** What one warm-up round adds, [h] being the handle it opens. *)
Definition warm_up_events (h : nat) : list event :=
  [EPrint [PStr "Reading data from serial port"];
   ESerial serial_port 9600 h; EReadline h].

(** What a tick adds in live mode when the line read from [h] is formatted
    as [d]. *)
Definition live_tick_events (h : nat) (d : gmap string string) : list event :=
  [EReadline h] ++ send_data_events d ++ [ESleep 2].

(** The line that handle [h] yields after [r] earlier reads, formatted. *)
Definition formatted (w : world) (h r : nat) : result (gmap string string) :=
  rbind (serial_readline w h r) format_message.

(** As long as the flag is not false, it stays so and the serial library is
    left alone. *)
Definition simulated_quiet (s s' : state) : Prop :=
  SIMULATE_DATA s <> Some false ->
  SIMULATE_DATA s' <> Some false
  /\ grows_by (fun ev => is_serial_event ev = false) s s'.

(** What live mode needs to get through its warm-up: a connection string
    that passes, an argument that selects live mode, a client that is
    created and connects, and a port that opens and yields a line fifteen
    times over. *)
Definition live_ready (w : world) (cs : string) : Prop :=
  getenv w connection_string_variable = Some cs
  /\ Re.search connection_string_pattern cs = true
  /\ select_mode (argv w) = inr false
  /\ create_client w (Some cs) = None
  /\ connect w = None
  /\ forall k, (k < 15)%nat ->
       serial_open w k = None /\ exists v, serial_readline w k 0 = inr v.

(** The trace of a run in live mode up to the end of the warm-up. *)
Definition live_prefix (w : world) (cs : string) : list event :=
  [EPrint [PStr "Device connection string is correct."]]
  ++ prelude_events w false (Some cs) ++ [EConnect]
  ++ flat_map warm_up_events (seq 0 15).

(** The state in which the loop starts in live mode. *)
Definition warmed_up (w : world) (cs : string) : state :=
  {| trace := live_prefix w cs;
     SIMULATE_DATA := Some false;
     device_client := Some (Client (Some cs));
     serial1 := Some 14%nat;
     handles := replicate 15 1%nat;
     mock_calls := 0 |}.

(** A hub that refuses the connection string. *)
Definition rejecting_world : world :=
  {| getenv := getenv simulated_world;
     argv := ["app.py"];
     create_client := fun _ => Some (LibraryError "ValueError");
     connect := None;
     serial_open := fun _ => None;
     serial_readline := tagged_line;
     mock_temp_hum := mock_temp_hum simulated_world;
     console_input := "" |}.

(** A sensor whose reads are interrupted from the keyboard once the
    warm-up is over. *)
Definition interrupted_line (h n : nat) : result pyval :=
  match n with
  | O => tagged_line h n
  | S _ => inl KeyboardInterrupt
  end.

Definition interrupted_world : world :=
  calm (Some good_connection_string) ["app.py"; "no"] interrupted_line.

(** A sensor that sends two good lines after the warm-up and then a
    short one. *)
Definition fading_line (h n : nat) : result pyval :=
  if (n <? 3)%nat then tagged_line h n else short_line h n.

Definition fading_world : world :=
  calm (Some good_connection_string) ["app.py"; "live"] fading_line.

(** A sensor read through a library that hands over byte strings, as
    pyserial does under Python 3, and the same sensor read as text. *)
Definition bytes_line (h n : nat) : result pyval :=
  inr (PyBytes ("a,b,c" +:+ String LF "")).

Definition text_line (h n : nat) : result pyval :=
  inr (PyStr ("a,b,c" +:+ String LF "")).

Definition bytes_world : world :=
  calm (Some good_connection_string) ["app.py"; "false"] bytes_line.

Definition text_world : world :=
  calm (Some good_connection_string) ["app.py"; "false"] text_line.

End Behaviour.

(** ** Facts about text *)

Section TextFacts.

Import Text.

Lemma str_app_cons c (s t : string) : String c s +:+ t = String c (s +:+ t).
Proof. reflexivity. Qed.

Lemma str_app_nil_l (t : string) : "" +:+ t = t.
Proof. reflexivity. Qed.

Lemma str_app_assoc (s t u : string) : (s +:+ t) +:+ u = s +:+ (t +:+ u).
Proof. induction s as [|c s IH]; [reflexivity|]. rewrite !str_app_cons. by f_equal. Qed.

Lemma str_length_app (s t : string) :
  String.length (s +:+ t) = (String.length s + String.length t)%nat.
Proof. induction s as [|c s IH]; [reflexivity|]. rewrite str_app_cons. simpl. lia. Qed.

Lemma occurs_app c (s t : string) :
  occurs c (s +:+ t) = occurs c s || occurs c t.
Proof.
  induction s as [|x s IH]; [reflexivity|].
  rewrite str_app_cons. simpl. rewrite IH. by rewrite orb_assoc.
Qed.

Lemma count_app c (s t : string) :
  count c (s +:+ t) = (count c s + count c t)%nat.
Proof.
  induction s as [|x s IH]; [reflexivity|].
  rewrite str_app_cons. simpl. rewrite IH. lia.
Qed.

Lemma count_occurs c s : count c s = 0%nat <-> occurs c s = false.
Proof.
  induction s as [|x s IH]; simpl; [done|].
  destruct (Ascii.eqb x c); simpl; [split; [lia | discriminate] | exact IH].
Qed.

(** A text free of the separator is a single field. *)
Lemma str_split_single sep s :
  occurs sep s = false -> str_split sep s = [s].
Proof.
  induction s as [|c s IH]; simpl; [done|].
  intros [Hc Hs]%orb_false_elim. rewrite Hc, (IH Hs). done.
Qed.

(** Cutting after a first field that is free of the separator. *)
Lemma str_split_app sep a s :
  occurs sep a = false ->
  str_split sep (a +:+ String sep s) = a :: str_split sep s.
Proof.
  induction a as [|c a IH]; intros Ha.
  - rewrite str_app_nil_l. simpl. by rewrite Ascii.eqb_refl.
  - simpl in Ha. apply orb_false_elim in Ha as [Hc Ha].
    rewrite str_app_cons. simpl. rewrite Hc, (IH Ha). done.
Qed.

(** There is one field more than there are separators. *)
Lemma str_split_length sep s :
  length (str_split sep s) = S (count sep s).
Proof.
  induction s as [|c s IH]; simpl; [done|].
  destruct (Ascii.eqb c sep); simpl; [by rewrite IH|].
  destruct (str_split sep s); simpl in *; lia.
Qed.

End TextFacts.

(** ** Facts about patterns *)

Section ReFacts.

Import Re.

Lemma all_accepted_app a x y :
  all_accepted a x -> all_accepted a y -> all_accepted a (x +:+ y).
Proof. induction 1; [done|]. intros Hy. rewrite str_app_cons. constructor; auto. Qed.

Lemma all_accepted_Dot x : all_accepted Dot x <-> Text.occurs Text.LF x = false.
Proof.
  split.
  - induction 1 as [|c s Hc _ IH]; simpl; [done|].
    simpl in Hc. apply negb_true_iff in Hc. by rewrite Hc, IH.
  - induction x as [|c x IH]; simpl; [constructor|].
    intros [Hc Hx]%orb_false_elim. constructor; [|auto].
    simpl. by rewrite Hc.
Qed.

(** The unrolling of the starred case of [match_here]. *)
Lemma match_here_star a re s :
  match_here (Star a :: re) s =
  match_here re s ||
  match s with
  | String c s' => accepts a c && match_here (Star a :: re) s'
  | EmptyString => false
  end.
Proof. destruct s; reflexivity. Qed.

Lemma match_here_sound re : forall s,
  match_here re s = true -> exists m rest, s = m +:+ rest /\ matches re m.
Proof.
  induction re as [|[a|a] re IH]; intros s.
  - intros _. exists "", s. split; [done | constructor].
  - destruct s as [|c s]; simpl; [done|].
    intros [Hc Hs]%andb_true_iff. destruct (IH _ Hs) as (m & rest & -> & Hm).
    exists (String c m), rest. split; [done | by constructor].
  - induction s as [|c s IHs]; rewrite match_here_star.
    + rewrite orb_false_r. intros Hs. destruct (IH _ Hs) as (m & rest & -> & Hm).
      exists m, rest. split; [done|]. apply (matches_star a re "" m); [constructor | done].
    + intros [Hs | [Hc Hs]%andb_true_iff]%orb_true_iff.
      * destruct (IH _ Hs) as (m & rest & -> & Hm).
        exists m, rest. split; [done|].
        apply (matches_star a re "" m); [constructor | done].
      * destruct (IHs Hs) as (m & rest & -> & Hm).
        inversion Hm as [| |a' re' x m' Hx Hm' Ea]; subst.
        exists (String c x +:+ m'), rest. split.
        { by rewrite !str_app_cons. }
        apply matches_star; [by constructor | done].
Qed.

Lemma match_here_complete re : forall m rest,
  matches re m -> match_here re (m +:+ rest) = true.
Proof.
  intros m rest Hm. revert rest.
  induction Hm as [|a re c s Hc Hm IH|a re x s Hx Hm IH]; intros rest.
  - done.
  - rewrite str_app_cons. simpl. by rewrite Hc, IH.
  - rewrite str_app_assoc.
    induction Hx as [|c x Hc Hx IHx]; rewrite match_here_star.
    + rewrite str_app_nil_l, IH. done.
    + rewrite str_app_cons, Hc, IHx. simpl. by rewrite orb_true_r.
Qed.

Lemma search_from_spec re s :
  search_from re s = true <->
  exists pre m post, s = pre +:+ m +:+ post /\ matches re m.
Proof.
  split.
  - induction s as [|c s IH]; simpl.
    + rewrite orb_false_r. intros (m & rest & -> & Hm)%match_here_sound.
      by exists "", m, rest.
    + intros [(m & rest & -> & Hm)%match_here_sound | Hs]%orb_true_iff.
      * by exists "", m, rest.
      * destruct (IH Hs) as (pre & m & post & -> & Hm).
        by exists (String c pre), m, post.
  - intros (pre & m & post & -> & Hm).
    induction pre as [|c pre IH].
    + rewrite str_app_nil_l.
      destruct (m +:+ post) eqn:E; simpl; rewrite <- E;
        by rewrite match_here_complete.
    + rewrite str_app_cons. simpl. by rewrite IH, orb_true_r.
Qed.

End ReFacts.

(** ** The connection string validator *)

Section Validator.

Import Re Text App Spec.

Lemma accepts_Lit x c : accepts (Lit x) c = true -> x = c.
Proof. apply Ascii.eqb_eq. Qed.

Ltac invert_matches :=
  repeat match goal with
    | H : matches (_ :: _) _ |- _ => inversion H; subst; clear H
    | H : matches [] _ |- _ => inversion H; subst; clear H
    | H : accepts (Lit _) _ = true |- _ =>
        apply accepts_Lit in H; subst
    end.

(** The texts the pattern of the script matches as a whole. *)
Lemma pattern_language m :
  matches (compile connection_string_pattern) m <->
  exists X Y, m = "HostName=" +:+ X +:+ ";DeviceId=" +:+ Y +:+ ";"
              /\ one_line X /\ one_line Y.
Proof.
  split.
  - intros H. vm_compute in H. invert_matches.
    match goal with
    | HX : all_accepted Dot ?X, HY : all_accepted Dot ?Y |- _ =>
        exists X, Y; split; [reflexivity|];
        split; by apply all_accepted_Dot
    end.
  - intros (X & Y & -> & HX & HY).
    apply all_accepted_Dot in HX, HY.
    let re := eval vm_compute in (compile connection_string_pattern) in
    change (compile connection_string_pattern) with re.
    repeat (apply matches_one; [reflexivity|]).
    apply matches_star; [done|].
    repeat (apply matches_one; [reflexivity|]).
    apply matches_star; [done|].
    apply matches_one; [reflexivity | constructor].
Qed.

Lemma search_pattern s :
  Re.search connection_string_pattern s = true <-> has_fields one_line s.
Proof.
  unfold Re.search. rewrite search_from_spec. split.
  - intros (pre & m & post & -> & (X & Y & -> & HX & HY)%pattern_language).
    exists pre, X, Y, post. split; [|done].
    f_equal. by rewrite !str_app_assoc.
  - intros (pre & X & Y & post & -> & HX & HY).
    exists pre, ("HostName=" +:+ X +:+ ";DeviceId=" +:+ Y +:+ ";"), post.
    split; [|apply pattern_language; by exists X, Y].
    f_equal. by rewrite !str_app_assoc.
Qed.

(** C1, as amended: the validator answers true exactly for the texts that
    hold [HostName=X;DeviceId=Y;] somewhere, where X and Y are free of
    line feeds and may be empty; it answers false for every other text. *)
Theorem validator_accepts_iff_fields (s : string) :
  (is_correct_connection_string (Some s) = inr true
     <-> has_fields one_line s)
  /\ (is_correct_connection_string (Some s) = inr false
     <-> ~ has_fields one_line s).
Proof.
  unfold is_correct_connection_string.
  rewrite <- search_pattern.
  destruct (Re.search connection_string_pattern s); split; split;
    congruence.
Qed.

(** C1, as stated, fails: the validator accepts a text whose two fields
    are both empty. *)
Lemma validator_accepts_empty_fields :
  is_correct_connection_string (Some "HostName=;DeviceId=;") = inr true
  /\ ~ has_fields nonempty "HostName=;DeviceId=;".
Proof.
  split; [reflexivity|].
  intros (pre & X & Y & post & E & HX & _).
  apply (f_equal String.length) in E.
  rewrite !str_length_app in E. simpl in E.
  destruct X; [by apply HX | simpl in E; lia].
Qed.

(** A field that holds a line feed is refused, although the text has both
    fields and the closing semicolon. *)
Lemma validator_rejects_line_feed :
  let s := "HostName=a" +:+ String LF ";DeviceId=b;" in
  is_correct_connection_string (Some s) = inr false
  /\ has_fields nonempty s.
Proof.
  split; [reflexivity|].
  exists "", ("a" +:+ String LF ""), "b", "". by repeat split.
Qed.

(** Without a text there is no answer at all. *)
Lemma validator_raises_on_None :
  is_correct_connection_string None = inl TypeError.
Proof. reflexivity. Qed.

End Validator.

(** ** The message formatter *)

Section Formatter.

Import Text App Spec.

(** Three fields free of commas come back as they were written. *)
Lemma str_split_three a b c :
  occurs "," a = false -> occurs "," b = false -> occurs "," c = false ->
  str_split "," (a +:+ "," +:+ b +:+ "," +:+ c) = [a; b; c].
Proof.
  intros Ha Hb Hc.
  change ("," +:+ b +:+ "," +:+ c) with (String "," (b +:+ "," +:+ c)).
  rewrite (str_split_app _ _ _ Ha).
  change ("," +:+ c) with (String "," c).
  by rewrite (str_split_app _ _ _ Hb), (str_split_single _ _ Hc).
Qed.

(** The dictionary display of [format_message] is the record of the
    specification. *)
Lemma dict_is_reading (a b c : string) :
  <["tvoc" := c]> (<["co2" := b]> (<["gas" := a]> (∅ : gmap string string)))
  = reading a b c.
Proof.
  unfold reading. apply map_eq. intros k.
  destruct (decide (k = "gas")) as [->|?];
    [by simplify_map_eq|].
  destruct (decide (k = "co2")) as [->|?];
    [by simplify_map_eq|].
  destruct (decide (k = "tvoc")) as [->|?];
    by simplify_map_eq.
Qed.

Lemma format_message_fields a b c :
  occurs "," a = false -> occurs "," b = false -> occurs "," c = false ->
  format_message (PyStr (a +:+ "," +:+ b +:+ "," +:+ c))
  = inr (reading a b c).
Proof.
  intros Ha Hb Hc. unfold format_message.
  rewrite (str_split_three _ _ _ Ha Hb Hc). simpl.
  by rewrite dict_is_reading.
Qed.

(** C4: a line [a,b,c] of three comma-free fields is formatted as exactly
    the record {gas: a, co2: b, tvoc: c}, the values being the texts
    [a], [b] and [c] themselves. *)
Theorem format_message_three_fields (a b c : string) :
  occurs "," a = false -> occurs "," b = false -> occurs "," c = false ->
  format_message (PyStr (a +:+ "," +:+ b +:+ "," +:+ c))
  = inr (reading a b c)
  /\ reading a b c !! "gas" = Some a
  /\ reading a b c !! "co2" = Some b
  /\ reading a b c !! "tvoc" = Some c
  /\ dom (reading a b c) = ({[ "gas"; "co2"; "tvoc" ]} : gset string).
Proof.
  intros Ha Hb Hc. split; [by apply format_message_fields|].
  unfold reading. repeat split; by simplify_map_eq.
Qed.

Lemma format_message_three_fields_witness :
  format_message (PyStr "417,1023,88")
  = inr (reading "417" "1023" "88").
Proof.
  apply (format_message_three_fields "417" "1023" "88"); reflexivity.
Defined.

(** C5: a line with fewer than three fields (fewer than two commas) makes
    the formatter raise [IndexError]; nothing is padded. *)
Theorem format_message_too_few_fields (s : string) :
  (count "," s < 2)%nat ->
  (length (str_split "," s) < 3)%nat
  /\ format_message (PyStr s) = inl IndexError.
Proof.
  intros Hs.
  pose proof (str_split_length "," s) as Hlen.
  split; [lia|].
  unfold format_message.
  destruct (str_split "," s) as [|x [|y [|z l]]]; simpl in *;
    [lia | reflexivity | reflexivity | lia].
Qed.

Lemma format_message_too_few_fields_witness :
  format_message (PyStr "a,b") = inl IndexError.
Proof.
  apply (format_message_too_few_fields "a,b"). simpl. lia.
Defined.

(** On text nothing is trimmed: when the line ends in a line feed, the
    line feed stays at the end of the [tvoc] value. *)
Theorem format_message_keeps_line_feed (a b c : string) :
  occurs "," a = false -> occurs "," b = false -> occurs "," c = false ->
  format_message (PyStr (a +:+ "," +:+ b +:+ "," +:+ c +:+ String LF ""))
  = inr (reading a b (c +:+ String LF "")).
Proof.
  intros Ha Hb Hc. apply format_message_fields; [done | done |].
  rewrite occurs_app, Hc. reflexivity.
Qed.

Lemma format_message_keeps_line_feed_witness :
  format_message (PyStr ("a,b,c" +:+ String LF ""))
  = inr (reading "a" "b" ("c" +:+ String LF "")).
Proof.
  apply (format_message_keeps_line_feed "a" "b" "c"); reflexivity.
Defined.

(** A byte string, which has no [split] by a text separator. *)
Lemma format_message_bytes b : format_message (PyBytes b) = inl TypeError.
Proof. reflexivity. Qed.

End Formatter.

(** ** Reasoning about runs *)

Section Keeps.

Import App Spec.

Context (R : state -> state -> Prop) `{!PreOrder R}.

Local Lemma R_refl s : R s s.
Proof. reflexivity. Qed.

Local Lemma R_trans s1 s2 s3 : R s1 s2 -> R s2 s3 -> R s1 s3.
Proof. intros. by etrans. Qed.

Lemma keeps_ret {A} (a : A) : keeps R (ret a).
Proof. intros s. apply R_refl. Qed.

Lemma keeps_raise {A} e : keeps R (@raise A e).
Proof. intros s. apply R_refl. Qed.

Lemma keeps_spin {A} : keeps R (@spin A).
Proof. intros s. apply R_refl. Qed.

Lemma keeps_lift {A} (r : result A) : keeps R (lift r).
Proof. destruct r; [apply keeps_raise | apply keeps_ret]. Qed.

Lemma keeps_get {A} (f : state -> A) : keeps R (get f).
Proof. intros s. apply R_refl. Qed.

Lemma keeps_bind {A B} (m : M A) (k : A -> M B) :
  keeps R m -> (forall a, keeps R (k a)) -> keeps R (bind m k).
Proof.
  intros Hm Hk s. unfold bind. specialize (Hm s).
  destruct (m s) as [[a| |] s1]; simpl in *; [|done..].
  eapply R_trans; [exact Hm | apply Hk].
Qed.

(** The state a computation leaves, seen from where its first part
    stopped. *)
Lemma keeps_rest {A B} (m : M A) (k : A -> M B) s :
  (forall a, keeps R (k a)) -> R (snd (m s)) (snd (bind m k s)).
Proof.
  intros Hk. unfold bind.
  destruct (m s) as [[a| |] s1]; simpl; [apply Hk | reflexivity..].
Qed.

Lemma keeps_handler {A} (body : M A) handler s :
  (forall e, keeps R (handler e)) ->
  R (snd (body s)) (snd (try_except body handler s)).
Proof.
  intros Hh. unfold try_except.
  destruct (body s) as [[a|e|] s1]; simpl; [reflexivity| |reflexivity].
  destruct (is_Exception e); [apply Hh | reflexivity].
Qed.

(** What follows a computation that never returns does not run. *)
Lemma keeps_bind_never {A B} (m : M A) (k : A -> M B) :
  never_returns m -> keeps R m -> keeps R (bind m k).
Proof.
  intros Hn Hm s. unfold bind. specialize (Hm s). specialize (Hn s).
  destruct (m s) as [[a| |] s1]; simpl in *; [|done..].
  by destruct (Hn a).
Qed.

Lemma keeps_try_except {A} (body : M A) handler :
  keeps R body -> (forall e, keeps R (handler e)) ->
  keeps R (try_except body handler).
Proof.
  intros Hb Hh s. unfold try_except. specialize (Hb s).
  destruct (body s) as [[a|e|] s1]; simpl in *; [done| |done].
  destruct (is_Exception e); [|done].
  eapply R_trans; [exact Hb | apply Hh].
Qed.

Lemma keeps_for_each {A} (l : list A) body :
  (forall x, keeps R (body x)) -> keeps R (for_each l body).
Proof.
  intros Hb. induction l as [|x l IH]; simpl;
    [apply keeps_ret | by apply keeps_bind].
Qed.

Lemma keeps_while_True fuel body :
  keeps R body -> keeps R (while_True fuel body).
Proof.
  intros Hb. induction fuel as [|fuel IH]; simpl;
    [apply keeps_spin | by apply keeps_bind].
Qed.

Lemma keeps_read_SIMULATE_DATA : keeps R read_SIMULATE_DATA.
Proof.
  intros s. unfold read_SIMULATE_DATA.
  destruct (SIMULATE_DATA s); apply R_refl.
Qed.

Lemma keeps_read_serial1 : keeps R read_serial1.
Proof.
  intros s. unfold read_serial1. destruct (serial1 s); apply R_refl.
Qed.

Lemma keeps_read_device_client : keeps R read_device_client.
Proof.
  intros s. unfold read_device_client.
  destruct (device_client s); apply R_refl.
Qed.

End Keeps.

Section NeverReturns.

Import App Spec.

Lemma never_returns_bind {A B} (m : M A) (k : A -> M B) :
  (forall a, never_returns (k a)) -> never_returns (bind m k).
Proof.
  intros Hk s b. unfold bind.
  destruct (m s) as [[a| |] s1]; simpl; [apply Hk | done | done].
Qed.

(** [while True] has no exit: it raises or it goes on. *)
Lemma never_returns_while_True fuel body :
  never_returns (while_True fuel body).
Proof.
  induction fuel as [|fuel IH]; simpl; [done|].
  by apply never_returns_bind.
Qed.

Lemma never_returns_send_recurring_telemetry w fuel c :
  never_returns (send_recurring_telemetry w fuel c).
Proof.
  unfold send_recurring_telemetry.
  repeat (apply never_returns_bind; intros ?).
  apply never_returns_while_True.
Qed.

End NeverReturns.

Section Traces.

Import App Spec.

#[export] Instance grows_by_preorder P : PreOrder (grows_by P).
Proof.
  split.
  - intros s. exists []. by rewrite app_nil_r.
  - intros s1 s2 s3 (t1 & E1 & H1) (t2 & E2 & H2). exists (t1 ++ t2). split.
    + by rewrite E2, E1, app_assoc.
    + by apply Forall_app.
Qed.

#[export] Instance same_mode_preorder : PreOrder same_mode.
Proof. split; unfold same_mode; [done | intros ???; congruence]. Qed.

#[export] Instance same_client_preorder : PreOrder same_client.
Proof. split; unfold same_client; [done | intros ???; congruence]. Qed.

Lemma grows_by_emit P ev : P ev -> keeps (grows_by P) (emit ev).
Proof. intros Hev s. exists [ev]. split; [done | by constructor]. Qed.

Lemma grows_by_put P f :
  (forall s, trace (f s) = trace s) -> keeps (grows_by P) (put f).
Proof. intros Hf s. exists []. simpl. by rewrite Hf, app_nil_r. Qed.

Lemma same_mode_emit ev : keeps same_mode (emit ev).
Proof. done. Qed.

Lemma same_mode_put f :
  (forall s, SIMULATE_DATA (f s) = SIMULATE_DATA s) ->
  keeps same_mode (put f).
Proof. intros Hf s. apply Hf. Qed.

Lemma same_client_emit ev : keeps same_client (emit ev).
Proof. done. Qed.

Lemma same_client_put f :
  (forall s, device_client (f s) = device_client s) ->
  keeps same_client (put f).
Proof. intros Hf s. apply Hf. Qed.

End Traces.

(** One step of a proof that a computation of the script keeps a
    relation: the combinator at the head decides. *)
Ltac keeps_with lem :=
  apply lem;
  lazymatch goal with
  | |- PreOrder _ => apply _
  | |- _ => idtac
  end.

Ltac keeps_step :=
  lazymatch goal with
  | |- Spec.keeps _ (App.bind _ _) => keeps_with @keeps_bind; [|intros ?]
  | |- Spec.keeps _ (App.ret _) => keeps_with @keeps_ret
  | |- Spec.keeps _ (App.raise _) => keeps_with @keeps_raise
  | |- Spec.keeps _ App.spin => keeps_with @keeps_spin
  | |- Spec.keeps _ (App.lift _) => keeps_with @keeps_lift
  | |- Spec.keeps _ (App.get _) => keeps_with @keeps_get
  | |- Spec.keeps _ App.read_SIMULATE_DATA =>
      keeps_with @keeps_read_SIMULATE_DATA
  | |- Spec.keeps _ App.read_serial1 => keeps_with @keeps_read_serial1
  | |- Spec.keeps _ App.read_device_client =>
      keeps_with @keeps_read_device_client
  | |- Spec.keeps _ (App.for_each _ _) => keeps_with @keeps_for_each; intros ?
  | |- Spec.keeps _ (App.while_True _ _) => keeps_with @keeps_while_True
  | |- Spec.keeps _ (App.try_except _ _) =>
      keeps_with @keeps_try_except; [|intros ?]
  | |- Spec.keeps (Spec.grows_by _) (App.emit _) => by apply grows_by_emit
  | |- Spec.keeps (Spec.grows_by _) (App.put _) => by apply grows_by_put
  | |- Spec.keeps Spec.same_mode (App.emit _) => apply same_mode_emit
  | |- Spec.keeps Spec.same_mode (App.put _) => by apply same_mode_put
  | |- Spec.keeps Spec.same_client (App.emit _) => apply same_client_emit
  | |- Spec.keeps Spec.same_client (App.put _) => by apply same_client_put
  | |- Spec.keeps _ (match ?x with _ => _ end) => destruct x
  end.


(** ** The script as a whole *)

Ltac unfold_collaborators :=
  unfold App.send_data, App.print, App.readline,
    App.generate_mock_temp_hum_data, App.time_sleep, App.os_getenv,
    App.sys_exit, App.create_from_connection_string, App.client_connect,
    App.client_shutdown, App.serial_Serial, App.input.

Ltac unfold_loop :=
  unfold App.send_recurring_telemetry, App.warm_up, App.tick.

Ltac keeps_auto := unfold_collaborators; repeat keeps_step.

Section ScriptFacts.

Import Text App Spec.

Variable w : world.

Lemma run_trace fuel : snd (run w fuel) = trace (final_state w fuel).
Proof. unfold run, final_state. by destruct (script w fuel initial). Qed.

Lemma grows_from_initial {A} P (m : M A) :
  keeps (grows_by P) m -> Forall P (trace (snd (m initial))).
Proof. intros Hm. destruct (Hm initial) as (tr & -> & Htr). done. Qed.

Lemma grows_by_Forall P s s' :
  grows_by P s s' -> Forall P (trace s) -> Forall P (trace s').
Proof. intros (tr & -> & Htr) Hs. by apply Forall_app. Qed.

Lemma count_events_app p tr1 tr2 :
  count_events p (tr1 ++ tr2) = (count_events p tr1 + count_events p tr2)%nat.
Proof. unfold count_events. by rewrite List.filter_app, length_app. Qed.

Lemma count_events_cons p ev tr :
  count_events p (ev :: tr)
  = ((if p ev then 1 else 0) + count_events p tr)%nat.
Proof. unfold count_events. simpl. by destruct (p ev). Qed.

Lemma count_events_none p tr :
  Forall (fun ev => p ev = false) tr -> count_events p tr = 0%nat.
Proof.
  unfold count_events. induction 1 as [|ev tr Hev _ IH]; simpl; [done|].
  by rewrite Hev.
Qed.

(** *** The sender *)

Lemma send_data_run d c s :
  send_data d c s = (Ret tt, with_trace (trace s ++ send_data_events d) s).
Proof.
  unfold send_data, print, emit, bind, with_trace, send_data_events. simpl.
  by rewrite <- !app_assoc.
Qed.

Lemma script_never_publishes fuel :
  keeps (grows_by (fun ev => is_ESendMessage ev = false)) (script w fuel).
Proof.
  unfold script, main, main_prelude, main_quit, main_handler.
  unfold_loop. keeps_auto.
Qed.

(** C7: [send_data] prints the record, then builds the envelope around it
    and sets its content encoding to utf-8 and its content type to
    application/json, and that is all; in no run of the script is
    [send_message] called. *)
Theorem send_data_builds_envelope_without_publishing
    (d : gmap string string) (c : client) (s : state) (fuel : nat) :
  send_data d c s = (Ret tt, with_trace (trace s ++ send_data_events d) s)
  /\ send_data_events d =
       [EPrint [PDict d]; EMessage d;
        ESetAttr "content_encoding" "utf-8";
        ESetAttr "content_type" "application/json"]
  /\ Forall (fun ev => is_ESendMessage ev = false) (snd (run w fuel)).
Proof.
  split; [apply send_data_run|]. split; [reflexivity|].
  rewrite run_trace. apply grows_from_initial, script_never_publishes.
Qed.

(** *** The quit prompt *)

Lemma script_never_prompts fuel :
  keeps (grows_by (fun ev => is_quit_event ev = false)) (script w fuel).
Proof.
  unfold script, main, main_prelude, main_handler. unfold_collaborators.
  repeat first
    [ lazymatch goal with
      | |- keeps _ (bind (send_recurring_telemetry _ _ _) _) =>
          keeps_with @keeps_bind_never;
          [apply never_returns_send_recurring_telemetry
          |unfold_loop; unfold_collaborators]
      end
    | keeps_step ].
Qed.

(** C9: the loop task never returns normally, whatever the fuel, and so
    no run of the script asks [Press Q to quit] or prints the farewell of
    the quit path. *)
Theorem quit_prompt_never_reached (fuel : nat) :
  (forall c, never_returns (send_recurring_telemetry w fuel c))
  /\ Forall (fun ev => is_quit_event ev = false) (snd (run w fuel))
  /\ is_quit_event (EInput quit_prompt) = true
  /\ is_quit_event (EPrint [PStr "Quitting..."]) = true.
Proof.
  split; [intros c; apply never_returns_send_recurring_telemetry|].
  split; [|by split].
  rewrite run_trace. apply grows_from_initial, script_never_prompts.
Qed.

(** *** Validation *)

(** With a correct connection string the script gets to [main]. *)
Lemma script_validated fuel cs :
  getenv w connection_string_variable = Some cs ->
  Re.search connection_string_pattern cs = true ->
  script w fuel initial = main w fuel (Some cs) validated.
Proof.
  intros Henv Hre. unfold script, os_getenv, bind at 1, ret at 1.
  rewrite Henv. unfold is_correct_connection_string. by rewrite Hre.
Qed.

(** With a text that the pattern does not match, the script prints its
    diagnostic and exits with status 0; no client was created. *)
Lemma script_malformed fuel cs :
  getenv w connection_string_variable = Some cs ->
  Re.search connection_string_pattern cs = false ->
  run w fuel =
    (Exited 0, [EPrint [PStr "Device connection string is not correct."]]).
Proof.
  intros Henv Hre. unfold run, script, os_getenv, bind at 1, ret at 1.
  rewrite Henv. unfold is_correct_connection_string. by rewrite Hre.
Qed.

(** With no text at all, [re.search] raises and nobody catches it. *)
Lemma script_absent fuel :
  getenv w connection_string_variable = None ->
  run w fuel = (Traceback TypeError, []).
Proof.
  intros Henv. unfold run, script, os_getenv, bind at 1, ret at 1.
  by rewrite Henv.
Qed.

(** *** Mode selection *)

Lemma lower_char_small x y :
  (97 <= nat_of_ascii y <= 122)%nat ->
  lower_char x = y <-> same_letter x y.
Proof.
  intros Hy. unfold lower_char, same_letter, capital.
  pose proof (nat_ascii_bounded x) as Hx.
  destruct (Nat.leb_spec 65 (nat_of_ascii x));
    destruct (Nat.leb_spec (nat_of_ascii x) 90); simpl; split.
  - intros <-. right; left. split; [lia|].
    apply nat_ascii_embedding. lia.
  - intros [-> | [[_ E] | [? _]]]; [lia | | lia].
    by rewrite <- E, ascii_nat_embedding.
  - intros ->. by left.
  - intros [-> | [[? _] | [? _]]]; [done | lia | lia].
  - intros ->. by left.
  - intros [-> | [[? _] | [? _]]]; [done | lia | lia].
  - intros ->. by left.
  - intros [-> | [[? _] | [? _]]]; [done | lia | lia].
Qed.

Lemma lower_small a b :
  Forall (fun y => 97 <= nat_of_ascii y <= 122)%nat (list_ascii_of_string b) ->
  lower a = b <-> same_ignoring_case a b.
Proof.
  revert a. induction b as [|y b IH]; intros [|x a] Hb; simpl; try done.
  apply Forall_cons in Hb as [Hy Hb].
  rewrite <- (IH a Hb), <- (lower_char_small x y Hy).
  split; [by intros [= -> ->] | by intros [-> ->]].
Qed.

Lemma lower_true a : lower a = "true" <-> same_ignoring_case a "true".
Proof.
  apply lower_small. simpl. repeat constructor; simpl; lia.
Qed.

Lemma select_mode_lookup (sys_argv : list string) :
  select_mode sys_argv =
  match sys_argv !! 1%nat with
  | Some a => inr (String.eqb (lower a) "true")
  | None => inr true
  end.
Proof.
  unfold select_mode, subscript.
  destruct (sys_argv !! 1%nat) as [a|] eqn:E.
  - apply lookup_lt_Some in E. by destruct (Nat.ltb_spec 1 (length sys_argv)); [|lia].
  - apply lookup_ge_None in E. by destruct (Nat.ltb_spec 1 (length sys_argv)); [lia|].
Qed.

Lemma same_mode_after_prelude fuel cs b :
  select_mode (argv w) = inr b ->
  SIMULATE_DATA (snd (main w fuel cs validated)) = Some b.
Proof.
  intros Hb. unfold main.
  etrans; [apply (keeps_handler same_mode);
           intros e; unfold main_handler; keeps_auto|].
  etrans; [apply (keeps_rest same_mode);
           intros c; unfold main_quit; unfold_loop; keeps_auto|].
  unfold main_prelude. rewrite Hb.
  change (bind (lift (inr b)) ?k validated) with (k b validated).
  etrans; [apply (keeps_rest same_mode); intros []; keeps_auto|].
  reflexivity.
Qed.

(** C8: the mode depends on the first positional argument alone: simulated
    when it equals [true] up to the case of its letters, live when it is
    anything else, simulated when it is missing; and the flag that [main]
    sets from it is the one the script ends with. *)
Theorem mode_selection (fuel : nat) :
  (forall a, argv w !! 1%nat = Some a -> same_ignoring_case a "true" ->
             select_mode (argv w) = inr true)
  /\ (forall a, argv w !! 1%nat = Some a -> ~ same_ignoring_case a "true" ->
                select_mode (argv w) = inr false)
  /\ (argv w !! 1%nat = None -> select_mode (argv w) = inr true)
  /\ (forall args : list string,
        args !! 1%nat = argv w !! 1%nat ->
        select_mode args = select_mode (argv w))
  /\ (forall cs,
        getenv w connection_string_variable = Some cs ->
        Re.search connection_string_pattern cs = true ->
        exists b, select_mode (argv w) = inr b
                  /\ SIMULATE_DATA (final_state w fuel) = Some b).
Proof.
  repeat split.
  - intros a Ha Hcase. rewrite select_mode_lookup, Ha.
    apply lower_true in Hcase. by rewrite Hcase.
  - intros a Ha Hcase. rewrite select_mode_lookup, Ha.
    destruct (String.eqb_spec (lower a) "true") as [E|]; [|done].
    by apply lower_true in E.
  - intros Ha. by rewrite select_mode_lookup, Ha.
  - intros args Hargs. by rewrite !select_mode_lookup, Hargs.
  - intros cs Henv Hre.
    assert (exists b, select_mode (argv w) = inr b) as [b Hb].
    { rewrite select_mode_lookup. destruct (argv w !! 1%nat); eauto. }
    exists b. split; [done|].
    unfold final_state. rewrite (script_validated fuel cs Henv Hre).
    by apply same_mode_after_prelude.
Qed.

(** *** Runtime faults *)

Lemma bind_Ret {A B} (m : M A) (k : A -> M B) s a s' :
  m s = (Ret a, s') -> bind m k s = k a s'.
Proof. intros E. unfold bind. by rewrite E. Qed.

Lemma bind_Raise {A B} (m : M A) (k : A -> M B) s e s' :
  m s = (Raise e, s') -> bind m k s = (Raise e, s').
Proof. intros E. unfold bind. by rewrite E. Qed.

Lemma try_except_caught {A} (body : M A) handler s e s' :
  body s = (Raise e, s') -> is_Exception e = true ->
  try_except body handler s = handler e s'.
Proof. intros E He. unfold try_except. by rewrite E, He. Qed.

Lemma prelude_binds_client cs s0 c s :
  main_prelude w cs s0 = (Ret c, s) -> device_client s = Some c.
Proof.
  unfold main_prelude. unfold_collaborators.
  unfold bind, lift, put, emit, read_SIMULATE_DATA, ret, raise. simpl.
  destruct (select_mode (argv w)); simpl; [done|].
  destruct (create_client w cs); simpl; [done|].
  by intros [= <- <-].
Qed.

Lemma main_handler_run e c s :
  device_client s = Some c ->
  main_handler e s = (Ret tt, with_trace (trace s ++ handler_events e) s).
Proof.
  destruct s as [tr sim dc s1 hs n]. simpl. intros ->.
  unfold main_handler, print, client_shutdown, read_device_client.
  unfold bind, emit, with_trace, handler_events. simpl.
  by rewrite <- !app_assoc.
Qed.

Lemma same_client_send_recurring_telemetry fuel c :
  keeps same_client (send_recurring_telemetry w fuel c).
Proof. unfold_loop. keeps_auto. Qed.

Lemma client_connect_run c s :
  client_connect w c s =
    (match connect w with Some e => Raise e | None => Ret tt end,
     with_trace (trace s ++ [EConnect]) s).
Proof.
  unfold client_connect, bind, emit. by destruct (connect w).
Qed.

(** The loop task calls [connect] once, first of all. *)
Lemma send_recurring_telemetry_connects_once fuel c s :
  exists tr,
    trace (snd (send_recurring_telemetry w fuel c s))
    = trace s ++ EConnect :: tr
    /\ Forall (fun ev => is_EConnect ev = false) tr.
Proof.
  unfold send_recurring_telemetry.
  pose proof (client_connect_run c s) as Hc.
  destruct (connect w) as [e|].
  - rewrite (bind_Raise _ _ _ _ _ Hc). by exists [].
  - rewrite (bind_Ret _ _ _ _ _ Hc).
    match goal with
    | |- context [snd (?m ?s1)] =>
        assert (keeps (grows_by (fun ev => is_EConnect ev = false)) m) as Hk
    end.
    { unfold_loop. keeps_auto. }
    destruct (Hk (with_trace (trace s ++ [EConnect]) s)) as (tr & -> & Htr).
    exists tr. split; [|done]. simpl. by rewrite <- app_assoc.
Qed.

Lemma main_prelude_quiet cs :
  keeps (grows_by (fun ev =>
           is_handler_event ev = false /\ is_EConnect ev = false))
    (main_prelude w cs).
Proof. unfold main_prelude. keeps_auto. Qed.

Lemma send_recurring_telemetry_no_handler_event fuel c :
  keeps (grows_by (fun ev => is_handler_event ev = false))
    (send_recurring_telemetry w fuel c).
Proof. unfold_loop. keeps_auto. Qed.

(** C6: when the loop task raises an [Exception], of whatever class, the
    handler of [main] runs once: the trace up to the fault is followed by
    the generic print, the shutdown call and the closing print, and by
    nothing else; the script then ends with status 0.  Nothing before the
    fault came from the handler, and [connect] was called once. *)
Theorem runtime_fault_caught_once
    (fuel : nat) (cs : string) (c : client) (s s' : state) (e : exn) :
  getenv w connection_string_variable = Some cs ->
  Re.search connection_string_pattern cs = true ->
  main_prelude w (Some cs) validated = (Ret c, s) ->
  send_recurring_telemetry w fuel c s = (Raise e, s') ->
  is_Exception e = true ->
  run w fuel = (Exited 0, trace s' ++ handler_events e)
  /\ Forall (fun ev => is_handler_event ev = false) (trace s')
  /\ count_events is_EConnect (trace s') = 1%nat.
Proof.
  intros Henv Hre Hpre Hloop He.
  pose proof (main_prelude_quiet (Some cs) validated) as (tr1 & E1 & Htr1).
  rewrite Hpre in E1. simpl in E1.
  split; [|split].
  - unfold run. rewrite (script_validated fuel cs Henv Hre). unfold main.
    rewrite (try_except_caught _ _ _ e s');
      [|by rewrite (bind_Ret _ _ _ _ _ Hpre), (bind_Raise _ _ _ _ _ Hloop)
       |done].
    rewrite (main_handler_run e c); [done|].
    pose proof (same_client_send_recurring_telemetry fuel c s) as Hsame.
    rewrite Hloop in Hsame. unfold same_client in Hsame. simpl in Hsame.
    rewrite Hsame. by apply (prelude_binds_client (Some cs) validated).
  - pose proof (send_recurring_telemetry_no_handler_event fuel c s) as Hk.
    rewrite Hloop in Hk. simpl in Hk.
    apply (grows_by_Forall _ _ _ Hk). rewrite E1.
    constructor; [done|].
    eapply Forall_impl; [exact Htr1 | by intros ev [? _]].
  - destruct (send_recurring_telemetry_connects_once fuel c s)
      as (tr2 & E2 & Htr2).
    rewrite Hloop in E2. simpl in E2. rewrite E2, E1.
    rewrite count_events_app, !count_events_cons.
    rewrite (count_events_none _ tr2 Htr2).
    rewrite (count_events_none _ tr1); [done|].
    eapply Forall_impl; [exact Htr1 | by intros ev [_ ?]].
Qed.

End ScriptFacts.

(** ** Runs in particular worlds *)

Section Worlds.

Import Text App Spec.

Lemma mode_selection_witness :
  select_mode (argv simulated_world) = inr true.
Proof.
  apply (proj1 (mode_selection simulated_world 0) "TRUE"); [reflexivity|].
  simpl. unfold same_letter, capital.
  repeat split; right; left;
    (split; [split; apply Nat.leb_le; reflexivity | reflexivity]).
Defined.

Lemma runtime_fault_caught_once_witness :
  let c := Client (Some good_connection_string) in
  let s := snd (main_prelude short_world (Some good_connection_string)
                  validated) in
  let s' := snd (send_recurring_telemetry short_world 1 c s) in
  run short_world 1 = (Exited 0, trace s' ++ handler_events IndexError)
  /\ Forall (fun ev => is_handler_event ev = false) (trace s')
  /\ count_events is_EConnect (trace s') = 1%nat.
Proof.
  intros c s s'.
  apply (runtime_fault_caught_once short_world 1 good_connection_string
           c s s' IndexError); vm_compute; reflexivity.
Defined.

(** C2: in live mode the port is opened once per warm-up round, fifteen
    times in all, and one line is read from each of the fifteen handles;
    the ticks read from the last handle, so the first line formatted is
    the second line of the fifteenth handle. *)
Theorem live_mode_opens_port_fifteen_times :
  count_events is_ESerial (snd (run live_world 1)) = 15%nat
  /\ serial1 (final_state live_world 1) = Some 14%nat
  /\ handles (final_state live_world 1) = replicate 14 1%nat ++ [2%nat]
  /\ messages (snd (run live_world 1))
     = [reading "O" "1" ("0" +:+ String LF "")].
Proof. repeat split; vm_compute; reflexivity. Qed.

(** C3: with the variable unset the script stops in a traceback, the
    [TypeError] of [re.search], having printed nothing; the diagnostic and
    the exit with status 0 are what a malformed text gets. *)
Theorem absent_connection_string_is_a_traceback (fuel : nat) :
  run absent_world fuel = (Traceback TypeError, [])
  /\ run malformed_world fuel
     = (Exited 0,
        [EPrint [PStr "Device connection string is not correct."]]).
Proof.
  split.
  - apply script_absent. reflexivity.
  - apply script_malformed with (cs := "Foo=1"); reflexivity.
Qed.

End Worlds.

(** ** More on the formatter *)

Section FormatterMore.

Import Text App Spec Behaviour.

(** No field that [split] yields holds the separator. *)
Lemma str_split_fields sep s :
  Forall (fun f => occurs sep f = false) (str_split sep s).
Proof.
  induction s as [|c s IH]; simpl; [by repeat constructor|].
  destruct (Ascii.eqb c sep) eqn:Ec; [by constructor|].
  destruct (str_split sep s) as [|f fs];
    [by repeat constructor; simpl; rewrite Ec|].
  apply Forall_cons in IH as [Hf Hfs].
  constructor; [|done]. simpl. by rewrite Ec, Hf.
Qed.

(** Either the text has no separator and is its only field, or it is a
    first field, the separator, and a rest that is split in turn. *)
Lemma str_split_inv sep s :
  (occurs sep s = false /\ str_split sep s = [s])
  \/ exists a rest,
       s = a +:+ String sep rest /\ occurs sep a = false
       /\ str_split sep s = a :: str_split sep rest.
Proof.
  induction s as [|c s IH]; [by left|].
  simpl. destruct (Ascii.eqb_spec c sep) as [->|Hc].
  - right. exists "", s. by repeat split.
  - destruct IH as [[Hs E] | (a & rest & -> & Ha & E)].
    + left. by rewrite E.
    + right. exists (String c a), rest. rewrite E. repeat split.
      simpl. apply orb_false_intro; [by apply Ascii.eqb_neq | done].
Qed.

(** X1: on text, the formatter returns a record exactly when the line
    holds at least two commas. *)
Theorem format_message_succeeds_iff (s : string) :
  (exists d, format_message (PyStr s) = inr d) <-> (2 <= count "," s)%nat.
Proof.
  pose proof (str_split_length "," s) as Hlen.
  unfold format_message.
  destruct (str_split "," s) as [|x [|y [|z l]]]; simpl in *.
  - lia.
  - split; [by intros [d [=]] | lia].
  - split; [by intros [d [=]] | lia].
  - split; [lia | by eauto].
Qed.

(** X2: fields after the third are ignored. *)
Theorem format_message_ignores_further_fields (a b c rest : string) :
  occurs "," a = false -> occurs "," b = false -> occurs "," c = false ->
  format_message (PyStr (a +:+ "," +:+ b +:+ "," +:+ c +:+ "," +:+ rest))
  = inr (reading a b c).
Proof.
  intros Ha Hb Hc. unfold format_message.
  change ("," +:+ b +:+ "," +:+ c +:+ "," +:+ rest)
    with (String "," (b +:+ "," +:+ c +:+ "," +:+ rest)).
  rewrite (str_split_app _ _ _ Ha).
  change ("," +:+ c +:+ "," +:+ rest) with (String "," (c +:+ "," +:+ rest)).
  rewrite (str_split_app _ _ _ Hb).
  change ("," +:+ rest) with (String "," rest).
  rewrite (str_split_app _ _ _ Hc). simpl.
  by rewrite dict_is_reading.
Qed.

Lemma format_message_ignores_further_fields_witness :
  format_message (PyStr "417,1023,88,extra,,fields")
  = inr (reading "417" "1023" "88").
Proof.
  apply (format_message_ignores_further_fields "417" "1023" "88"
           "extra,,fields"); reflexivity.
Defined.

(** X3: whenever the formatter returns a record, the line was three
    comma-free fields, alone or followed by a comma and more, and the
    record holds exactly those three fields under gas, co2 and tvoc. *)
Theorem format_message_inversion (s : string) (d : gmap string string) :
  format_message (PyStr s) = inr d ->
  exists a b c,
    occurs "," a = false /\ occurs "," b = false /\ occurs "," c = false
    /\ d = reading a b c
    /\ dom d = ({[ "gas"; "co2"; "tvoc" ]} : gset string)
    /\ (s = a +:+ "," +:+ b +:+ "," +:+ c
        \/ exists rest, s = a +:+ "," +:+ b +:+ "," +:+ c +:+ "," +:+ rest).
Proof.
  unfold format_message. intros H.
  destruct (str_split_inv "," s) as [[_ E] | (a & s1 & -> & Ha & E)];
    rewrite E in H; [done|].
  destruct (str_split_inv "," s1) as [[_ E1] | (b & s2 & -> & Hb & E1)];
    rewrite E1 in H; [done|].
  exists a, b.
  destruct (str_split_inv "," s2) as [[Hc E2] | (c & rest & -> & Hc & E2)];
    rewrite E2 in H; simpl in H; injection H as <-.
  - exists s2. rewrite dict_is_reading. repeat split; try done.
    by left.
  - exists c. rewrite dict_is_reading. repeat split; try done.
    right. by exists rest.
Qed.

Lemma format_message_inversion_witness :
  exists a b c,
    occurs "," a = false /\ occurs "," b = false /\ occurs "," c = false
    /\ reading "1" "2" "3" = reading a b c
    /\ dom (reading "1" "2" "3") = ({[ "gas"; "co2"; "tvoc" ]} : gset string)
    /\ ("1,2,3,4" = a +:+ "," +:+ b +:+ "," +:+ c
        \/ exists rest,
             "1,2,3,4" = a +:+ "," +:+ b +:+ "," +:+ c +:+ "," +:+ rest).
Proof.
  apply (format_message_inversion "1,2,3,4" (reading "1" "2" "3")).
  vm_compute. reflexivity.
Defined.

End FormatterMore.

(** ** More on the validator *)

Section ValidatorMore.

Import Text App Spec Behaviour.

(** X4: a text with fewer than two semicolons is never accepted. *)
Theorem validator_needs_two_semicolons (s : string) :
  (count ";" s < 2)%nat ->
  is_correct_connection_string (Some s) = inr false.
Proof.
  intros Hs. unfold is_correct_connection_string.
  destruct (Re.search connection_string_pattern s) eqn:E; [|done].
  apply search_pattern in E as (pre & X & Y & post & -> & _).
  rewrite !count_app in Hs. simpl in Hs. lia.
Qed.

Lemma validator_needs_two_semicolons_witness :
  is_correct_connection_string (Some "HostName=h;DeviceId=d") = inr false.
Proof.
  apply (validator_needs_two_semicolons "HostName=h;DeviceId=d").
  simpl. lia.
Defined.

(** X5: a text that is accepted stays accepted with any text put before
    it and after it: the pattern is searched for, not matched against the
    whole. *)
Theorem validator_accepts_superstrings (pre s post : string) :
  is_correct_connection_string (Some s) = inr true ->
  is_correct_connection_string (Some (pre +:+ s +:+ post)) = inr true.
Proof.
  unfold is_correct_connection_string.
  destruct (Re.search connection_string_pattern s) eqn:E; [intros _|done].
  apply search_pattern in E as (p & X & Y & q & -> & HX & HY).
  assert (Re.search connection_string_pattern
            (pre +:+ (p +:+ "HostName=" +:+ X +:+ ";DeviceId=" +:+ Y
                      +:+ ";" +:+ q) +:+ post) = true) as ->; [|done].
  apply search_pattern. exists (pre +:+ p), X, Y, (q +:+ post).
  split; [|done]. by rewrite !str_app_assoc.
Qed.

Lemma validator_accepts_superstrings_witness :
  is_correct_connection_string
    (Some ("junk " +:+ "HostName=h;DeviceId=d;" +:+ " more junk")) = inr true.
Proof.
  apply (validator_accepts_superstrings "junk " "HostName=h;DeviceId=d;"
           " more junk"). reflexivity.
Defined.

End ValidatorMore.

(** ** More on the runs of the script *)

Section RunsMore.

Import Text App Spec Behaviour.

Variable w : world.

(** The guard on the length of [sys.argv] keeps [sys.argv[1]] in range. *)
Lemma select_mode_returns (sys_argv : list string) :
  exists b, select_mode sys_argv = inr b.
Proof. rewrite select_mode_lookup. destruct (sys_argv !! 1%nat); eauto. Qed.

(** What the lines of [main] before the loop task do, in full. *)
Lemma main_prelude_run cs s0 b :
  select_mode (argv w) = inr b ->
  main_prelude w cs s0 =
    match create_client w cs with
    | Some e =>
        (Raise e,
         {| trace := trace s0 ++ [EPrint [PStr "SIMULATE_DATA: "; PBool b];
                                  ECreateClient cs];
            SIMULATE_DATA := Some b;
            device_client := device_client s0;
            serial1 := serial1 s0;
            handles := handles s0;
            mock_calls := mock_calls s0 |})
    | None =>
        (Ret (Client cs),
         {| trace := trace s0 ++ prelude_events w b cs;
            SIMULATE_DATA := Some b;
            device_client := Some (Client cs);
            serial1 := serial1 s0;
            handles := handles s0;
            mock_calls := mock_calls s0 |})
    end.
Proof.
  intros Hb. destruct s0 as [tr sim dc s1 hs n].
  unfold main_prelude. unfold_collaborators. rewrite Hb.
  unfold bind, lift, put, emit, read_SIMULATE_DATA, ret, raise,
    with_trace, with_SIMULATE_DATA, with_device_client, prelude_events.
  simpl. destruct (create_client w cs); simpl; by rewrite <- ?app_assoc.
Qed.

Lemma try_except_passed {A} (body : M A) handler s e s' :
  body s = (Raise e, s') -> is_Exception e = false ->
  try_except body handler s = (Raise e, s').
Proof. intros E He. unfold try_except. by rewrite E, He. Qed.

(** The handler when [device_client] was never bound. *)
Lemma main_handler_unbound e s :
  device_client s = None ->
  main_handler e s =
    (Raise UnboundLocalError,
     with_trace (trace s ++ [EPrint [PFormat "Unexpected error %s " e]]) s).
Proof.
  destruct s as [tr sim dc s1 hs n]. simpl. intros ->.
  unfold main_handler, print, client_shutdown, read_device_client.
  by unfold bind, emit, with_trace.
Qed.

(** X6: when the hub library refuses the connection string with an
    [Exception], the handler prints it and then fails itself, on the
    unbound [device_client]: the script ends in a traceback, without a
    shutdown call and without the closing print. *)
Theorem client_creation_failure_breaks_handler
    (fuel : nat) (cs : string) (e : exn) :
  getenv w connection_string_variable = Some cs ->
  Re.search connection_string_pattern cs = true ->
  create_client w (Some cs) = Some e ->
  is_Exception e = true ->
  exists b,
    select_mode (argv w) = inr b
    /\ run w fuel =
         (Traceback UnboundLocalError,
          [EPrint [PStr "Device connection string is correct."];
           EPrint [PStr "SIMULATE_DATA: "; PBool b];
           ECreateClient (Some cs);
           EPrint [PFormat "Unexpected error %s " e]]).
Proof.
  intros Henv Hre Hcreate He.
  destruct (select_mode_returns (argv w)) as [b Hb]. exists b.
  split; [done|].
  pose proof (main_prelude_run (Some cs) validated b Hb) as Hpre.
  rewrite Hcreate in Hpre.
  unfold run. rewrite (script_validated w fuel cs Henv Hre). unfold main.
  rewrite (try_except_caught _ _ _ _ _ (bind_Raise _ _ _ _ _ Hpre) He).
  by rewrite main_handler_unbound.
Qed.

(** X7: an exception that is no [Exception] (an interrupt from the
    keyboard, a [SystemExit]) passes the handler of [main] by: nothing is
    printed for it, no shutdown is called, and the script ends with it. *)
Theorem base_exception_bypasses_handler
    (fuel : nat) (cs : string) (c : client) (s s' : state) (e : exn) :
  getenv w connection_string_variable = Some cs ->
  Re.search connection_string_pattern cs = true ->
  main_prelude w (Some cs) validated = (Ret c, s) ->
  send_recurring_telemetry w fuel c s = (Raise e, s') ->
  is_Exception e = false ->
  run w fuel = (ending_of (@Raise unit e), trace s')
  /\ Forall (fun ev => is_handler_event ev = false) (trace s').
Proof.
  intros Henv Hre Hpre Hloop He. split.
  - unfold run. rewrite (script_validated w fuel cs Henv Hre). unfold main.
    rewrite (try_except_passed _ _ _ e s'); [done| |done].
    by rewrite (bind_Ret _ _ _ _ _ Hpre), (bind_Raise _ _ _ _ _ Hloop).
  - pose proof (main_prelude_quiet w (Some cs) validated) as Hq.
    rewrite Hpre in Hq. simpl in Hq.
    pose proof (send_recurring_telemetry_no_handler_event w fuel c s) as Hk.
    rewrite Hloop in Hk. simpl in Hk.
    apply (grows_by_Forall _ _ _ Hk).
    destruct Hq as (tr1 & -> & Htr1).
    constructor; [done|].
    eapply Forall_impl; [exact Htr1 | by intros ev [? _]].
Qed.

End RunsMore.

Section RunsMoreWitnesses.

Import Text App Spec Behaviour.

Lemma client_creation_failure_breaks_handler_witness :
  exists b,
    select_mode (argv rejecting_world) = inr b
    /\ run rejecting_world 3 =
         (Traceback UnboundLocalError,
          [EPrint [PStr "Device connection string is correct."];
           EPrint [PStr "SIMULATE_DATA: "; PBool b];
           ECreateClient (Some good_connection_string);
           EPrint [PFormat "Unexpected error %s "
                     (LibraryError "ValueError")]]).
Proof.
  apply (client_creation_failure_breaks_handler rejecting_world 3
           good_connection_string (LibraryError "ValueError"));
    reflexivity.
Defined.

Lemma base_exception_bypasses_handler_witness :
  let c := Client (Some good_connection_string) in
  let s := snd (main_prelude interrupted_world
                  (Some good_connection_string) validated) in
  let s' := snd (send_recurring_telemetry interrupted_world 2 c s) in
  run interrupted_world 2 = (Traceback KeyboardInterrupt, trace s')
  /\ Forall (fun ev => is_handler_event ev = false) (trace s').
Proof.
  intros c s s'.
  apply (base_exception_bypasses_handler interrupted_world 2
           good_connection_string c s s' KeyboardInterrupt);
    vm_compute; reflexivity.
Defined.

End RunsMoreWitnesses.

(** ** Simulated mode *)

Section Simulated.

Import Text App Spec Behaviour.

Variable w : world.

#[export] Instance simulated_quiet_preorder : PreOrder simulated_quiet.
Proof.
  split.
  - intros s Hs. split; [done | reflexivity].
  - intros s1 s2 s3 H12 H23 Hs.
    destruct (H12 Hs) as [Hs2 G12]. destruct (H23 Hs2) as [Hs3 G23].
    split; [done | by etrans].
Qed.

Lemma simulated_quiet_emit ev :
  is_serial_event ev = false -> keeps simulated_quiet (emit ev).
Proof.
  intros Hev s Hs. split; [done|]. by apply (grows_by_emit _ ev).
Qed.

Lemma simulated_quiet_put f :
  (forall s, trace (f s) = trace s) ->
  (forall s, SIMULATE_DATA (f s) = SIMULATE_DATA s) ->
  keeps simulated_quiet (put f).
Proof.
  intros Ht Hm s Hs. simpl. split; [by rewrite Hm|].
  by apply (grows_by_put _ f).
Qed.

Lemma simulated_quiet_put_mode :
  keeps simulated_quiet (put (with_SIMULATE_DATA true)).
Proof.
  intros s Hs. split; [done|]. exists []. simpl. by rewrite app_nil_r.
Qed.

(** Where the flag is not false, reading it gives true or raises. *)
Lemma simulated_quiet_read {A} (k : bool -> M A) :
  keeps simulated_quiet (k true) ->
  keeps simulated_quiet (bind read_SIMULATE_DATA k).
Proof.
  intros Hk s Hs. specialize (Hk s Hs). unfold bind, read_SIMULATE_DATA.
  destruct (SIMULATE_DATA s) as [[|]|] eqn:E; simpl.
  - exact Hk.
  - done.
  - split; [by rewrite E | reflexivity].
Qed.

Lemma keeps_bind_lift_inr {A B} R (a : A) (k : A -> M B) :
  keeps R (k a) -> keeps R (bind (lift (inr a)) k).
Proof. intros Hk s. apply Hk. Qed.

Ltac simulated_step :=
  lazymatch goal with
  | |- keeps simulated_quiet (bind read_SIMULATE_DATA _) =>
      apply simulated_quiet_read; cbn [negb]
  | |- keeps _ (bind (lift (inr _)) _) => apply keeps_bind_lift_inr
  | |- keeps _ (put (with_SIMULATE_DATA true)) =>
      apply simulated_quiet_put_mode
  | |- keeps _ (emit _) => by apply simulated_quiet_emit
  | |- keeps _ (put _) => by apply simulated_quiet_put
  | |- _ => keeps_step
  end.

Lemma script_simulated_quiet fuel :
  select_mode (argv w) = inr true ->
  keeps simulated_quiet (script w fuel).
Proof.
  intros Hb. unfold script, main, main_prelude, main_quit, main_handler.
  unfold_loop. unfold_collaborators. rewrite Hb.
  repeat simulated_step.
Qed.

(** X8: when the arguments select simulated mode, no run of the script
    opens the serial port or reads from it, whatever else happens. *)
Theorem simulated_mode_leaves_serial_port_alone (fuel : nat) :
  select_mode (argv w) = inr true ->
  Forall (fun ev => is_serial_event ev = false) (snd (run w fuel)).
Proof.
  intros Hb. rewrite run_trace. unfold final_state.
  destruct (script_simulated_quiet fuel Hb initial) as [_ (tr & -> & Htr)];
    done.
Qed.

(** One tick in simulated mode. *)
Lemma tick_simulated_run c s :
  SIMULATE_DATA s = Some true ->
  tick w c s =
    (Ret tt,
     {| trace := trace s ++ simulated_tick_events w (mock_calls s);
        SIMULATE_DATA := SIMULATE_DATA s;
        device_client := device_client s;
        serial1 := serial1 s;
        handles := handles s;
        mock_calls := S (mock_calls s) |}).
Proof.
  destruct s as [tr sim dc s1 hs n]. simpl. intros ->.
  unfold tick. unfold_collaborators.
  unfold bind, read_SIMULATE_DATA, emit, get, put, ret, with_trace,
    with_mock_calls, simulated_tick_events, send_data_events.
  simpl. by rewrite <- !app_assoc.
Qed.

Lemma while_True_simulated c n : forall s,
  SIMULATE_DATA s = Some true ->
  while_True n (tick w c) s =
    (Spin,
     {| trace := trace s
                 ++ flat_map (simulated_tick_events w) (seq (mock_calls s) n);
        SIMULATE_DATA := SIMULATE_DATA s;
        device_client := device_client s;
        serial1 := serial1 s;
        handles := handles s;
        mock_calls := mock_calls s + n |}).
Proof.
  induction n as [|n IH]; intros s Hs.
  - destruct s. simpl. unfold spin. by rewrite app_nil_r, Nat.add_0_r.
  - simpl. rewrite (bind_Ret _ _ _ _ _ (tick_simulated_run c s Hs)).
    rewrite IH; [|done]. simpl.
    by rewrite <- app_assoc, Nat.add_succ_r.
Qed.

Lemma messages_app tr1 tr2 :
  messages (tr1 ++ tr2) = messages tr1 ++ messages tr2.
Proof. apply omap_app. Qed.

Lemma messages_simulated a n :
  messages (flat_map (simulated_tick_events w) (seq a n))
  = map (mock_temp_hum w) (seq a n).
Proof.
  revert a. induction n as [|n IH]; intros a; [done|].
  cbn [seq flat_map]. rewrite messages_app, IH. reflexivity.
Qed.

Lemma count_sleeps_simulated a n :
  count_events is_ESleep (flat_map (simulated_tick_events w) (seq a n)) = n.
Proof.
  revert a. induction n as [|n IH]; intros a; [done|].
  cbn [seq flat_map]. rewrite count_events_app, IH. reflexivity.
Qed.

Lemma bind_Spin {A B} (m : M A) (k : A -> M B) s s' :
  m s = (Spin, s') -> bind m k s = (Spin, s').
Proof. intros E. unfold bind. by rewrite E. Qed.

Lemma send_recurring_telemetry_simulated c n s :
  SIMULATE_DATA s = Some true ->
  connect w = None ->
  send_recurring_telemetry w n c s =
    (Spin,
     {| trace := trace s ++ [EConnect]
                 ++ flat_map (simulated_tick_events w) (seq (mock_calls s) n);
        SIMULATE_DATA := SIMULATE_DATA s;
        device_client := device_client s;
        serial1 := serial1 s;
        handles := handles s;
        mock_calls := mock_calls s + n |}).
Proof.
  intros Hs Hconnect. unfold send_recurring_telemetry.
  pose proof (client_connect_run w c s) as Hc. rewrite Hconnect in Hc.
  rewrite (bind_Ret _ _ _ _ _ Hc).
  destruct s as [tr sim dc s1 hs m]. simpl in *. subst sim.
  unfold bind at 1. unfold read_SIMULATE_DATA, with_trace. simpl.
  unfold bind at 1. unfold ret at 1.
  rewrite while_True_simulated; [|done]. simpl.
  by rewrite <- app_assoc.
Qed.

(** X9: in simulated mode, once the client is created and connected,
    nothing can stop the loop: after any number of ticks the script is
    still running, and the trace is the connection followed, tick by tick,
    by the mock record printed, wrapped and a sleep of two seconds; the
    records wrapped are the mock generator's, in order. *)
Theorem simulated_mode_run (n : nat) (cs : string) :
  getenv w connection_string_variable = Some cs ->
  Re.search connection_string_pattern cs = true ->
  select_mode (argv w) = inr true ->
  create_client w (Some cs) = None ->
  connect w = None ->
  run w n =
    (Running,
     [EPrint [PStr "Device connection string is correct."]]
     ++ prelude_events w true (Some cs) ++ [EConnect]
     ++ flat_map (simulated_tick_events w) (seq 0 n))
  /\ messages (snd (run w n)) = map (mock_temp_hum w) (seq 0 n)
  /\ count_events is_ESleep (snd (run w n)) = n.
Proof.
  intros Henv Hre Hb Hcreate Hconnect.
  assert (run w n =
    (Running,
     [EPrint [PStr "Device connection string is correct."]]
     ++ prelude_events w true (Some cs) ++ [EConnect]
     ++ flat_map (simulated_tick_events w) (seq 0 n))) as Hrun.
  { pose proof (main_prelude_run w (Some cs) validated true Hb) as Hpre.
    rewrite Hcreate in Hpre.
    unfold run. rewrite (script_validated w n cs Henv Hre).
    unfold main, try_except. rewrite (bind_Ret _ _ _ _ _ Hpre).
    rewrite (bind_Spin _ _ _ _
               (send_recurring_telemetry_simulated _ n _
                  (eq_refl : SIMULATE_DATA
                     {| trace := trace validated
                                 ++ prelude_events w true (Some cs);
                        SIMULATE_DATA := Some true;
                        device_client := Some (Client (Some cs));
                        serial1 := serial1 validated;
                        handles := handles validated;
                        mock_calls := mock_calls validated |} = Some true)
                  Hconnect)).
    reflexivity. }
  rewrite Hrun. split; [done|]. cbn [snd]. split.
  - rewrite !messages_app, messages_simulated. reflexivity.
  - rewrite !count_events_app, count_sleeps_simulated. reflexivity.
Qed.

End Simulated.

Section SimulatedWitnesses.

Import Text App Spec Behaviour.

Lemma simulated_mode_leaves_serial_port_alone_witness :
  Forall (fun ev => is_serial_event ev = false) (snd (run simulated_world 4)).
Proof.
  apply (simulated_mode_leaves_serial_port_alone simulated_world 4).
  reflexivity.
Defined.

Lemma simulated_mode_run_witness :
  messages (snd (run simulated_world 3))
  = map (mock_temp_hum simulated_world) (seq 0 3).
Proof.
  apply (simulated_mode_run simulated_world 3 good_connection_string);
    reflexivity.
Defined.

End SimulatedWitnesses.

(** ** How runs end, and what they call how often *)

Section Endings.

Import Text App Spec Behaviour.

Variable w : world.

Lemma bind_never_snd {A B} (m : M A) (k : A -> M B) s :
  never_returns m -> snd (bind m k s) = snd (m s).
Proof.
  intros Hn. unfold bind. specialize (Hn s).
  destruct (m s) as [[a| |] s1]; simpl in *; [by destruct (Hn a) | done..].
Qed.

Lemma bind_never_fst {A B} (m : M A) (k : A -> M B) s :
  never_returns m ->
  (exists e, fst (bind m k s) = Raise e /\ fst (m s) = Raise e)
  \/ (fst (bind m k s) = Spin /\ fst (m s) = Spin).
Proof.
  intros Hn. unfold bind. specialize (Hn s).
  destruct (m s) as [[a|e|] s1]; simpl in *;
    [by destruct (Hn a) | left; by exists e | by right].
Qed.


Lemma main_handler_plain e :
  keeps (grows_by (fun ev => is_plain ev = true)) (main_handler e).
Proof. unfold main_handler. keeps_auto. Qed.

Lemma send_recurring_telemetry_connects_first fuel c s :
  exists tr,
    trace (snd (send_recurring_telemetry w fuel c s))
    = trace s ++ EConnect :: tr
    /\ Forall (fun ev => is_plain ev = true) tr.
Proof.
  unfold send_recurring_telemetry.
  pose proof (client_connect_run w c s) as Hc.
  destruct (connect w) as [e|].
  - rewrite (bind_Raise _ _ _ _ _ Hc). by exists [].
  - rewrite (bind_Ret _ _ _ _ _ Hc).
    match goal with
    | |- context [snd (?m ?s1)] =>
        assert (keeps (grows_by (fun ev => is_plain ev = true)) m) as Hk
    end.
    { unfold_loop. keeps_auto. }
    destruct (Hk (with_trace (trace s ++ [EConnect]) s)) as (tr & -> & Htr).
    exists tr. split; [|done]. simpl. by rewrite <- app_assoc.
Qed.

(** The trace of [main], up to events that create and connect nothing. *)
Lemma main_trace_shape fuel cs b :
  select_mode (argv w) = inr b ->
  exists tr,
    Forall (fun ev => is_plain ev = true) tr
    /\ trace (snd (main w fuel cs validated)) =
       match create_client w cs with
       | Some _ =>
           trace validated
           ++ [EPrint [PStr "SIMULATE_DATA: "; PBool b]; ECreateClient cs]
           ++ tr
       | None =>
           trace validated ++ prelude_events w b cs ++ EConnect :: tr
       end.
Proof.
  intros Hb. unfold main.
  match goal with
  | |- context [try_except ?body _ _] =>
      destruct (keeps_handler (grows_by (fun ev => is_plain ev = true))
                  body main_handler validated
                  main_handler_plain) as (trh & Eh & Hh)
  end.
  rewrite Eh. clear Eh.
  pose proof (main_prelude_run w cs validated b Hb) as Hpre.
  destruct (create_client w cs) as [e|].
  - rewrite (bind_Raise _ _ _ _ _ Hpre). exists trh. split; [done|].
    simpl. by rewrite <- ?app_assoc.
  - rewrite (bind_Ret _ _ _ _ _ Hpre).
    rewrite bind_never_snd;
      [|apply never_returns_send_recurring_telemetry].
    match goal with
    | |- context [send_recurring_telemetry w fuel ?c ?s] =>
        destruct (send_recurring_telemetry_connects_first fuel c s)
          as (tr2 & -> & Htr2)
    end.
    exists (tr2 ++ trh). split; [by apply Forall_app|].
    simpl. by rewrite <- ?app_assoc.
Qed.

Lemma count_plain tr :
  Forall (fun ev => is_plain ev = true) tr ->
  count_events is_EConnect tr = 0%nat
  /\ count_events is_ECreateClient tr = 0%nat.
Proof.
  intros H. split; apply count_events_none;
    (eapply Forall_impl; [exact H | by intros []]).
Qed.

(** X10: a run creates the client once if the connection string passes
    validation and never otherwise, always from the very text that was
    validated; it calls [connect] once if the client was created and never
    otherwise.  There is no second client and no reconnection. *)
Theorem client_created_and_connected_at_most_once (fuel : nat) :
  count_events is_ECreateClient (snd (run w fuel))
  = (if passes_validation w then 1 else 0)%nat
  /\ count_events is_EConnect (snd (run w fuel))
     = (if client_created w then 1 else 0)%nat
  /\ (forall cs, ECreateClient cs ∈ snd (run w fuel) ->
                 passes_validation w = true
                 /\ cs = getenv w connection_string_variable).
Proof.
  unfold client_created, passes_validation.
  destruct (getenv w connection_string_variable) as [cs|] eqn:Henv.
  2:{ rewrite (script_absent w fuel Henv). simpl.
      split; [done|]. split; [done|]. by intros cs' ?%elem_of_nil. }
  destruct (Re.search connection_string_pattern cs) eqn:Hre.
  2:{ rewrite (script_malformed w fuel cs Henv Hre). simpl.
      split; [done|]. split; [done|].
      by intros cs' [[=]|?%elem_of_nil]%elem_of_cons. }
  rewrite run_trace. unfold final_state.
  rewrite (script_validated w fuel cs Henv Hre).
  destruct (select_mode_returns (argv w)) as [b Hb].
  destruct (main_trace_shape fuel (Some cs) b Hb) as (tr & Htr & ->).
  destruct (count_plain tr Htr) as [Hconn Hcreate].
  rewrite Forall_forall in Htr.
  destruct (create_client w (Some cs)) as [e|]; simpl.
  - split; [by rewrite !count_events_cons, Hcreate|].
    split; [by rewrite !count_events_cons, Hconn|].
    intros cs' H.
    apply elem_of_cons in H as [[=]|H].
    apply elem_of_cons in H as [[=]|H].
    apply elem_of_cons in H as [[= ->]|H]; [done|].
    by specialize (Htr _ H).
  - split; [by rewrite !count_events_cons, Hcreate|].
    split; [by rewrite !count_events_cons, Hconn|].
    intros cs' H.
    apply elem_of_cons in H as [[=]|H].
    apply elem_of_cons in H as [[=]|H].
    apply elem_of_cons in H as [[= ->]|H]; [done|].
    do 4 (apply elem_of_cons in H as [[=]|H]).
    by specialize (Htr _ H).
Qed.


Lemma main_body_unhandled fuel cs :
  keeps (grows_by (fun ev => is_handler_event ev = false))
    (c <- main_prelude w cs ;; send_recurring_telemetry w fuel c ;;
     main_quit w)%py.
Proof.
  unfold main_prelude. unfold_collaborators.
  repeat first
    [ lazymatch goal with
      | |- keeps _ (bind (send_recurring_telemetry _ _ _) _) =>
          keeps_with @keeps_bind_never;
          [apply never_returns_send_recurring_telemetry
          |unfold_loop; unfold_collaborators]
      end
    | keeps_step ].
Qed.

Lemma main_body_never_returns fuel cs :
  never_returns
    (c <- main_prelude w cs ;; send_recurring_telemetry w fuel c ;;
     main_quit w)%py.
Proof.
  intros s a. unfold bind at 1.
  destruct (main_prelude w cs s) as [[c| |] s1]; simpl; [|done..].
  destruct (bind_never_fst (send_recurring_telemetry w fuel c)
              (fun _ => main_quit w) s1
              (never_returns_send_recurring_telemetry w fuel c))
    as [(e & -> & _) | [-> _]]; done.
Qed.

(** The four ways in which [main] can end. *)
Lemma main_endings fuel cs s0 :
  let r := main w fuel cs s0 in
  (fst r = Spin /\ grows_by (fun ev => is_handler_event ev = false) s0 (snd r))
  \/ (exists t e,
        is_Exception e = true /\ fst r = Ret tt
        /\ trace (snd r) = trace t ++ handler_events e
        /\ grows_by (fun ev => is_handler_event ev = false) s0 t)
  \/ (exists t e,
        is_Exception e = true /\ fst r = Raise UnboundLocalError
        /\ trace (snd r)
           = trace t ++ [EPrint [PFormat "Unexpected error %s " e]]
        /\ grows_by (fun ev => is_handler_event ev = false) s0 t)
  \/ (exists e,
        is_Exception e = false /\ fst r = Raise e
        /\ grows_by (fun ev => is_handler_event ev = false) s0 (snd r)).
Proof.
  unfold main, try_except.
  pose proof (main_body_unhandled fuel cs s0) as Hg.
  pose proof (main_body_never_returns fuel cs s0) as Hn.
  destruct ((c <- main_prelude w cs ;; send_recurring_telemetry w fuel c ;;
             main_quit w)%py s0) as [[a|e|] s1]; simpl in *.
  - by destruct (Hn a).
  - destruct (is_Exception e) eqn:He.
    + destruct (device_client s1) as [c|] eqn:Hc.
      * right; left. exists s1, e.
        by rewrite (main_handler_run e c s1 Hc).
      * right; right; left. exists s1, e.
        by rewrite (main_handler_unbound e s1 Hc).
    + right; right; right. by exists e.
  - by left.
Qed.

Lemma unhandled_from_validated s :
  grows_by (fun ev => is_handler_event ev = false) validated s ->
  Forall (fun ev => is_handler_event ev = false) (trace s).
Proof.
  intros H. apply (grows_by_Forall _ _ _ H). by repeat constructor.
Qed.

(** The six ways in which the script can end. *)
Lemma run_endings fuel :
  run w fuel = (Traceback TypeError, [])
  \/ run w fuel
     = (Exited 0, [EPrint [PStr "Device connection string is not correct."]])
  \/ (fst (run w fuel) = Running
      /\ Forall (fun ev => is_handler_event ev = false) (snd (run w fuel)))
  \/ (exists t e,
        is_Exception e = true
        /\ run w fuel = (Exited 0, t ++ handler_events e)
        /\ Forall (fun ev => is_handler_event ev = false) t)
  \/ (exists t e,
        is_Exception e = true
        /\ run w fuel
           = (Traceback UnboundLocalError,
              t ++ [EPrint [PFormat "Unexpected error %s " e]])
        /\ Forall (fun ev => is_handler_event ev = false) t)
  \/ (exists e,
        is_Exception e = false
        /\ fst (run w fuel) = ending_of (@Raise unit e)
        /\ Forall (fun ev => is_handler_event ev = false) (snd (run w fuel))).
Proof.
  destruct (getenv w connection_string_variable) as [cs|] eqn:Henv;
    [|left; by apply script_absent].
  destruct (Re.search connection_string_pattern cs) eqn:Hre;
    [|right; left; by apply script_malformed with (cs := cs)].
  do 2 right. unfold run. rewrite (script_validated w fuel cs Henv Hre).
  pose proof (main_endings fuel (Some cs) validated) as H. simpl in H.
  destruct (main w fuel (Some cs) validated) as [o s1]. simpl in *.
  destruct H as [[-> H] | [(t & e & He & -> & -> & H)
                 | [(t & e & He & -> & -> & H) | (e & He & -> & H)]]].
  - left. split; [done | by apply unhandled_from_validated].
  - right; left. exists (trace t), e.
    split; [done|]. split; [done | by apply unhandled_from_validated].
  - right; right; left. exists (trace t), e.
    split; [done|]. split; [done | by apply unhandled_from_validated].
  - right; right; right. exists e.
    split; [done|]. split; [done | by apply unhandled_from_validated].
Qed.

Lemma script_absent_outcome fuel :
  getenv w connection_string_variable = None ->
  script w fuel initial = (Raise TypeError, initial).
Proof.
  intros Henv. unfold script, os_getenv, bind at 1, ret at 1.
  by rewrite Henv.
Qed.

Lemma script_malformed_outcome fuel cs :
  getenv w connection_string_variable = Some cs ->
  Re.search connection_string_pattern cs = false ->
  script w fuel initial =
    (Raise (SystemExit 0),
     with_trace [EPrint [PStr "Device connection string is not correct."]]
       initial).
Proof.
  intros Henv Hre. unfold script, os_getenv, bind at 1, ret at 1.
  rewrite Henv. unfold is_correct_connection_string. by rewrite Hre.
Qed.

(** X11: every run of the script ends in one of six ways, told apart by
    what the module body comes to and by whether validation was passed:
    [re.search] raises [TypeError] with nothing printed (no connection
    string); [sys.exit(0)] after the diagnostic (a connection string that
    fails the pattern); still looping; a normal return, which only happens
    with the three events of the handler closing the trace; an
    [UnboundLocalError] out of the handler; or an exception that is no
    [Exception], raised inside [main].  The loop never returned: in no case
    does the trace hold the quit prompt or its farewell. *)
Theorem every_run_ends_in_one_of_six_ways (fuel : nat) :
  fst (run w fuel) = ending_of (fst (script w fuel initial))
  /\ Forall (fun ev => is_quit_event ev = false) (snd (run w fuel))
  /\ ((passes_validation w = false
       /\ getenv w connection_string_variable = None
       /\ fst (script w fuel initial) = Raise TypeError
       /\ snd (run w fuel) = [])
      \/ (passes_validation w = false
          /\ fst (script w fuel initial) = Raise (SystemExit 0)
          /\ snd (run w fuel)
             = [EPrint [PStr "Device connection string is not correct."]])
      \/ (passes_validation w = true
          /\ fst (script w fuel initial) = Spin
          /\ Forall (fun ev => is_handler_event ev = false)
               (snd (run w fuel)))
      \/ (passes_validation w = true
          /\ exists t e,
               is_Exception e = true
               /\ fst (script w fuel initial) = Ret tt
               /\ snd (run w fuel) = t ++ handler_events e
               /\ Forall (fun ev => is_handler_event ev = false) t)
      \/ (passes_validation w = true
          /\ exists t e,
               is_Exception e = true
               /\ fst (script w fuel initial) = Raise UnboundLocalError
               /\ snd (run w fuel)
                  = t ++ [EPrint [PFormat "Unexpected error %s " e]]
               /\ Forall (fun ev => is_handler_event ev = false) t)
      \/ (passes_validation w = true
          /\ exists e,
               is_Exception e = false
               /\ fst (script w fuel initial) = Raise e
               /\ Forall (fun ev => is_handler_event ev = false)
                    (snd (run w fuel)))).
Proof.
  split; [unfold run; by destruct (script w fuel initial)|].
  split; [rewrite run_trace; apply grows_from_initial, script_never_prompts|].
  rewrite run_trace. unfold final_state, passes_validation.
  destruct (getenv w connection_string_variable) as [cs|] eqn:Henv.
  2:{ left. by rewrite (script_absent_outcome fuel Henv). }
  destruct (Re.search connection_string_pattern cs) eqn:Hre.
  2:{ right; left. by rewrite (script_malformed_outcome fuel cs Henv Hre). }
  do 2 right. rewrite (script_validated w fuel cs Henv Hre).
  pose proof (main_endings fuel (Some cs) validated) as H. simpl in H.
  destruct (main w fuel (Some cs) validated) as [o s1]. simpl in *.
  destruct H as [[-> H] | [(t & e & He & -> & -> & H)
                 | [(t & e & He & -> & -> & H) | (e & He & -> & H)]]].
  - left. repeat split; [done..|]. by apply unhandled_from_validated.
  - right; left. split; [done|]. exists (trace t), e.
    repeat split; [done..|]. by apply unhandled_from_validated.
  - right; right; left. split; [done|]. exists (trace t), e.
    repeat split; [done..|]. by apply unhandled_from_validated.
  - right; right; right. split; [done|]. exists e.
    repeat split; [done..|]. by apply unhandled_from_validated.
Qed.

Lemma count_unhandled tr :
  Forall (fun ev => is_handler_event ev = false) tr ->
  count_events is_EShutdown tr = 0%nat.
Proof.
  intros H. apply count_events_none.
  eapply Forall_impl; [exact H|]. by intros [].
Qed.

(** X12: [shutdown] is called at most once in a run; it has not been
    called while the script is still looping; and when it has been
    called, the script has ended with status 0, its trace closing with the
    three events of the handler. *)
Theorem shutdown_only_after_a_caught_fault (fuel : nat) :
  (count_events is_EShutdown (snd (run w fuel)) <= 1)%nat
  /\ (fst (run w fuel) = Running ->
      count_events is_EShutdown (snd (run w fuel)) = 0%nat)
  /\ (count_events is_EShutdown (snd (run w fuel)) = 1%nat ->
      exists t e,
        is_Exception e = true
        /\ run w fuel = (Exited 0, t ++ handler_events e)
        /\ Forall (fun ev => is_handler_event ev = false) t).
Proof.
  assert (count_events is_EShutdown (snd (run w fuel)) = 0%nat
          \/ exists t e,
               is_Exception e = true
               /\ run w fuel = (Exited 0, t ++ handler_events e)
               /\ Forall (fun ev => is_handler_event ev = false) t)
    as [Hn | (t & e & He & E & H)].
  { destruct (run_endings fuel)
      as [E | [E | [[E H] | [(t & e & He & E & H)
         | [(t & e & He & E & H) | (e & He & E & H)]]]]].
    - left. by rewrite E.
    - left. by rewrite E.
    - left. by apply count_unhandled.
    - right. by exists t, e.
    - left. rewrite E. cbn [snd].
      by rewrite count_events_app, (count_unhandled _ H).
    - left. by apply count_unhandled. }
  - rewrite Hn. split; [lia|]. split; [done | by intros [=]].
  - rewrite E. cbn [fst snd].
    rewrite count_events_app, (count_unhandled _ H).
    split; [done|]. split; [by intros [=]|]. intros _. by exists t, e.
Qed.

End Endings.

Section EndingsWitnesses.

Import Text App Spec Behaviour.

Lemma client_created_and_connected_at_most_once_witness :
  passes_validation live_world = true
  /\ Some good_connection_string
     = getenv live_world connection_string_variable.
Proof.
  apply (proj2 (proj2
           (client_created_and_connected_at_most_once live_world 0))
           (Some good_connection_string)).
  apply (list_elem_of_lookup_2 _ 2%nat). reflexivity.
Defined.

Lemma shutdown_only_after_a_caught_fault_witness :
  exists t e,
    is_Exception e = true
    /\ run short_world 1 = (Exited 0, t ++ handler_events e)
    /\ Forall (fun ev => is_handler_event ev = false) t.
Proof.
  apply (proj2 (proj2 (shutdown_only_after_a_caught_fault short_world 1))).
  vm_compute. reflexivity.
Defined.

End EndingsWitnesses.

(** ** Live mode *)

Section Live.

Import Text App Spec Behaviour.

Variable w : world.

Lemma serial_Serial_run port baud s :
  serial_Serial w port baud s =
    match serial_open w (length (handles s)) with
    | Some e =>
        (Raise e,
         with_trace (trace s ++ [ESerial port baud (length (handles s))]) s)
    | None =>
        (Ret (length (handles s)),
         {| trace := trace s ++ [ESerial port baud (length (handles s))];
            SIMULATE_DATA := SIMULATE_DATA s;
            device_client := device_client s;
            serial1 := serial1 s;
            handles := handles s ++ [0%nat];
            mock_calls := mock_calls s |})
    end.
Proof.
  destruct s as [tr sim dc s1 hs n].
  unfold serial_Serial, bind, get, emit, put, ret, raise, with_trace,
    with_handles. simpl.
  by destruct (serial_open w (length hs)).
Qed.

Lemma readline_run h s :
  readline w h s =
    (match serial_readline w h (default 0%nat (handles s !! h)) with
     | inl e => Raise e
     | inr v => Ret v
     end,
     {| trace := trace s ++ [EReadline h];
        SIMULATE_DATA := SIMULATE_DATA s;
        device_client := device_client s;
        serial1 := serial1 s;
        handles := <[h := S (default 0%nat (handles s !! h))]> (handles s);
        mock_calls := mock_calls s |}).
Proof.
  destruct s as [tr sim dc s1 hs n].
  unfold readline, bind, get, emit, put, lift, ret, raise, with_trace,
    with_handles. simpl.
  by destruct (serial_readline w h (default 0%nat (hs !! h))).
Qed.

(** One round of the warm-up, when the port opens and yields a line. *)
Lemma warm_up_run i s v :
  serial_open w (length (handles s)) = None ->
  serial_readline w (length (handles s)) 0 = inr v ->
  warm_up w i s =
    (Ret tt,
     {| trace := trace s ++ warm_up_events (length (handles s));
        SIMULATE_DATA := SIMULATE_DATA s;
        device_client := device_client s;
        serial1 := Some (length (handles s));
        handles := handles s ++ [1%nat];
        mock_calls := mock_calls s |}).
Proof.
  destruct s as [tr sim dc s1 hs n]. cbn [handles trace SIMULATE_DATA
    device_client serial1 mock_calls]. intros Hopen Hread.
  unfold warm_up, print, serial_Serial, readline, bind, get, emit, put, ret,
    raise, lift, read_serial1, with_trace, with_handles, with_serial1.
  cbn [handles trace SIMULATE_DATA device_client serial1 mock_calls].
  rewrite Hopen.
  cbn [handles trace SIMULATE_DATA device_client serial1 mock_calls].
  rewrite list_lookup_middle by done. cbn [default from_option id].
  rewrite Hread.
  rewrite (insert_app_r_alt hs [0%nat] (length hs)), Nat.sub_diag by lia.
  unfold warm_up_events. rewrite <- !app_assoc. reflexivity.
Qed.

(** The warm-up as a whole: every round opens a further handle and reads
    one line from it. *)
Lemma warm_ups_run n : forall a s,
  (forall k, (k < n)%nat ->
     serial_open w (length (handles s) + k) = None
     /\ exists v, serial_readline w (length (handles s) + k) 0 = inr v) ->
  for_each (seq a n) (warm_up w) s =
    (Ret tt,
     {| trace := trace s
                 ++ flat_map warm_up_events (seq (length (handles s)) n);
        SIMULATE_DATA := SIMULATE_DATA s;
        device_client := device_client s;
        serial1 := match n with
                   | O => serial1 s
                   | S m => Some (length (handles s) + m)%nat
                   end;
        handles := handles s ++ replicate n 1%nat;
        mock_calls := mock_calls s |}).
Proof.
  induction n as [|n IH]; intros a s Hw.
  - destruct s. cbn. unfold ret. by rewrite !app_nil_r.
  - destruct (Hw 0%nat ltac:(lia)) as [Hopen [v Hread]].
    rewrite Nat.add_0_r in Hopen, Hread.
    cbn [seq for_each].
    rewrite (bind_Ret _ _ _ _ _ (warm_up_run a s v Hopen Hread)).
    rewrite IH; cbn [handles trace SIMULATE_DATA device_client serial1
      mock_calls].
    + rewrite length_app. cbn [length]. rewrite Nat.add_1_r.
      cbn [flat_map replicate]. rewrite <- !app_assoc.
      f_equal. f_equal. destruct n; f_equal; lia.
    + intros k Hk. rewrite length_app. cbn [length].
      replace (length (handles s) + 1 + k)%nat
        with (length (handles s) + S k)%nat by lia.
      apply Hw. lia.
Qed.

(** One tick in live mode: the line is read from the handle that
    [serial1] holds; the tick goes through when the line can be formatted
    and raises otherwise. *)
Lemma tick_live_run c s h r :
  SIMULATE_DATA s = Some false ->
  serial1 s = Some h ->
  handles s !! h = Some r ->
  tick w c s =
    match formatted w h r with
    | inr d =>
        (Ret tt,
         {| trace := trace s ++ live_tick_events h d;
            SIMULATE_DATA := SIMULATE_DATA s;
            device_client := device_client s;
            serial1 := serial1 s;
            handles := <[h := S r]> (handles s);
            mock_calls := mock_calls s |})
    | inl e =>
        (Raise e,
         {| trace := trace s ++ [EReadline h];
            SIMULATE_DATA := SIMULATE_DATA s;
            device_client := device_client s;
            serial1 := serial1 s;
            handles := <[h := S r]> (handles s);
            mock_calls := mock_calls s |})
    end.
Proof.
  destruct s as [tr sim dc s1 hs n]. cbn [handles trace SIMULATE_DATA
    device_client serial1 mock_calls]. intros -> -> Hr.
  unfold tick, formatted, rbind.
  unfold bind at 1. unfold read_SIMULATE_DATA at 1. cbn [SIMULATE_DATA].
  unfold bind at 1. unfold bind at 1. unfold read_serial1 at 1.
  cbn [serial1]. unfold bind at 1. rewrite readline_run.
  cbn [handles trace SIMULATE_DATA device_client serial1 mock_calls].
  rewrite Hr. cbn [default from_option id].
  destruct (serial_readline w h r) as [e|v]; [done|].
  unfold bind at 1. unfold lift at 1.
  destruct (format_message v) as [e|d]; [done|].
  unfold ret at 1. rewrite send_data_run.
  unfold time_sleep, emit, with_trace, live_tick_events.
  cbn [handles trace SIMULATE_DATA device_client serial1 mock_calls].
  by rewrite <- !app_assoc.
Qed.

(** The loop in live mode, as long as the lines can be formatted. *)
Lemma while_True_live c h ds : forall s r,
  SIMULATE_DATA s = Some false ->
  serial1 s = Some h ->
  handles s !! h = Some r ->
  (forall j d, ds !! j = Some d -> formatted w h (r + j) = inr d) ->
  while_True (length ds) (tick w c) s =
    (Spin,
     {| trace := trace s ++ flat_map (live_tick_events h) ds;
        SIMULATE_DATA := SIMULATE_DATA s;
        device_client := device_client s;
        serial1 := serial1 s;
        handles := <[h := (r + length ds)%nat]> (handles s);
        mock_calls := mock_calls s |}).
Proof.
  induction ds as [|d ds IH]; intros s r Hsim Hh Hr Hds.
  - destruct s. cbn in *. unfold spin.
    by rewrite app_nil_r, Nat.add_0_r, list_insert_id.
  - pose proof (tick_live_run c s h r Hsim Hh Hr) as Ht.
    rewrite <- (Nat.add_0_r r) in Ht at 1.
    rewrite (Hds 0%nat d eq_refl) in Ht.
    cbn [length while_True]. rewrite (bind_Ret _ _ _ _ _ Ht).
    rewrite (IH _ (S r)); cbn [handles trace SIMULATE_DATA device_client
      serial1 mock_calls]; try done.
    + rewrite list_insert_insert_eq. cbn [flat_map].
      rewrite <- !app_assoc. do 3 f_equal. lia.
    + apply list_lookup_insert_eq. by eapply lookup_lt_Some.
    + intros j d' Hj. replace (S r + j)%nat with (r + S j)%nat by lia.
      by apply Hds.
Qed.

(** The loop in live mode when the line after those of [ds] cannot be
    read or formatted. *)
Lemma while_True_live_fault c h e k ds : forall s r,
  SIMULATE_DATA s = Some false ->
  serial1 s = Some h ->
  handles s !! h = Some r ->
  (forall j d, ds !! j = Some d -> formatted w h (r + j) = inr d) ->
  formatted w h (r + length ds) = inl e ->
  while_True (length ds + S k) (tick w c) s =
    (Raise e,
     {| trace := trace s ++ flat_map (live_tick_events h) ds
                 ++ [EReadline h];
        SIMULATE_DATA := SIMULATE_DATA s;
        device_client := device_client s;
        serial1 := serial1 s;
        handles := <[h := S (r + length ds)]> (handles s);
        mock_calls := mock_calls s |}).
Proof.
  induction ds as [|d ds IH]; intros s r Hsim Hh Hr Hds He.
  - pose proof (tick_live_run c s h r Hsim Hh Hr) as Ht.
    cbn [length] in He. rewrite Nat.add_0_r in He. rewrite He in Ht.
    cbn [length Nat.add while_True]. rewrite (bind_Raise _ _ _ _ _ Ht).
    by rewrite Nat.add_0_r.
  - pose proof (tick_live_run c s h r Hsim Hh Hr) as Ht.
    rewrite <- (Nat.add_0_r r) in Ht at 1.
    rewrite (Hds 0%nat d eq_refl) in Ht.
    cbn [length Nat.add while_True]. rewrite (bind_Ret _ _ _ _ _ Ht).
    rewrite (IH _ (S r)); cbn [handles trace SIMULATE_DATA device_client
      serial1 mock_calls]; try done.
    + rewrite list_insert_insert_eq. cbn [flat_map].
      rewrite <- !app_assoc. do 3 f_equal. lia.
    + apply list_lookup_insert_eq. by eapply lookup_lt_Some.
    + intros j d' Hj. replace (S r + j)%nat with (r + S j)%nat by lia.
      by apply Hds.
    + replace (S r + length ds)%nat with (r + length (d :: ds))%nat
        by (cbn [length]; lia).
      exact He.
Qed.

Lemma bind_read_SIMULATE_DATA {A} (k : bool -> M A) s b :
  SIMULATE_DATA s = Some b -> bind read_SIMULATE_DATA k s = k b s.
Proof. intros E. unfold bind, read_SIMULATE_DATA. by rewrite E. Qed.

(** In live mode, [main] up to the loop leaves the state [warmed_up]. *)
Lemma live_body n cs :
  live_ready w cs ->
  (c <- main_prelude w (Some cs) ;; send_recurring_telemetry w n c ;;
   main_quit w)%py validated
  = (while_True n (tick w (Client (Some cs))) ;; main_quit w)%py
      (warmed_up w cs).
Proof.
  intros (_ & _ & Hb & Hcreate & Hconnect & Hw).
  pose proof (main_prelude_run w (Some cs) validated false Hb) as Hpre.
  rewrite Hcreate in Hpre. rewrite (bind_Ret _ _ _ _ _ Hpre).
  unfold send_recurring_telemetry.
  match goal with
  | |- bind (bind (client_connect w ?c) ?k) ?q ?s = _ =>
      pose proof (client_connect_run w c s) as Hc
  end.
  rewrite Hconnect in Hc.
  unfold bind at 1. rewrite (bind_Ret _ _ _ _ _ Hc).
  rewrite (bind_read_SIMULATE_DATA _ _ false) by reflexivity. cbn [negb].
  match goal with
  | |- context [bind (for_each (seq 0 15) (warm_up w)) _ ?s] =>
      rewrite (bind_Ret _ _ _ _ _ (warm_ups_run 15 0 s Hw))
  end.
  reflexivity.
Qed.

Lemma messages_live h ds :
  messages (flat_map (live_tick_events h) ds) = ds.
Proof.
  induction ds as [|d ds IH]; [done|].
  cbn [flat_map]. rewrite messages_app, IH. reflexivity.
Qed.

Lemma messages_live_prefix cs : messages (live_prefix w cs) = [].
Proof. reflexivity. Qed.

Lemma warmed_up_line cs : handles (warmed_up w cs) !! 14%nat = Some 1%nat.
Proof. reflexivity. Qed.

(** X13: in live mode, when the port opens and yields a line each time,
    the warm-up opens it fifteen times, reads one line from each of the
    handles 0 to 14, and leaves [serial1] on handle 14, the one all later
    ticks read from. *)
Theorem live_mode_warm_up (cs : string) :
  live_ready w cs ->
  run w 0 = (Running, live_prefix w cs)
  /\ final_state w 0 = warmed_up w cs
  /\ count_events is_ESerial (live_prefix w cs) = 15%nat
  /\ filter (fun ev => is_serial_event ev = true) (live_prefix w cs)
     = flat_map (fun h => [ESerial serial_port 9600 h; EReadline h])
         (seq 0 15).
Proof.
  intros Hready.
  assert (script w 0 initial = (Spin, warmed_up w cs)) as Hs.
  { destruct Hready as (Henv & Hre & Hrest).
    rewrite (script_validated w 0 cs Henv Hre). unfold main, try_except.
    by rewrite (live_body 0 cs (conj Henv (conj Hre Hrest))). }
  unfold run, final_state. rewrite Hs. by repeat split.
Qed.

(** X14: in live mode the k-th tick formats the k-th line that handle 14
    yields after its warm-up line; as long as those lines can be
    formatted, the script keeps running and the records wrapped are the
    formatted lines, in order, one per tick. *)
Theorem live_mode_formats_lines_in_order
    (cs : string) (ds : list (gmap string string)) :
  live_ready w cs ->
  (forall j d, ds !! j = Some d -> formatted w 14 (1 + j) = inr d) ->
  run w (length ds)
  = (Running, live_prefix w cs ++ flat_map (live_tick_events 14) ds)
  /\ messages (snd (run w (length ds))) = ds.
Proof.
  intros Hready Hds.
  assert (run w (length ds)
          = (Running, live_prefix w cs ++ flat_map (live_tick_events 14) ds))
    as Hrun.
  { pose proof Hready as (Henv & Hre & _).
    unfold run. rewrite (script_validated w _ cs Henv Hre).
    unfold main, try_except. rewrite (live_body _ cs Hready).
    rewrite (bind_Spin _ _ _ _
               (while_True_live _ 14 ds (warmed_up w cs) 1
                  eq_refl eq_refl (warmed_up_line cs) Hds)).
    reflexivity. }
  rewrite Hrun. split; [done|]. cbn [snd].
  by rewrite messages_app, messages_live_prefix, messages_live.
Qed.

(** X15: in live mode the first line that cannot be read or formatted
    ends the run: the lines before it were each wrapped once, the failing
    one is read and nothing more, the handler runs, and the script ends
    with status 0 however many ticks were still to come. *)
Theorem live_mode_stops_at_first_bad_line
    (cs : string) (ds : list (gmap string string)) (e : exn) (k : nat) :
  live_ready w cs ->
  (forall j d, ds !! j = Some d -> formatted w 14 (1 + j) = inr d) ->
  formatted w 14 (1 + length ds) = inl e ->
  is_Exception e = true ->
  run w (length ds + S k)
  = (Exited 0,
     live_prefix w cs ++ flat_map (live_tick_events 14) ds
     ++ [EReadline 14] ++ handler_events e)
  /\ messages (snd (run w (length ds + S k))) = ds.
Proof.
  intros Hready Hds Hbad He.
  assert (run w (length ds + S k)
          = (Exited 0,
             live_prefix w cs ++ flat_map (live_tick_events 14) ds
             ++ [EReadline 14] ++ handler_events e)) as Hrun.
  { pose proof Hready as (Henv & Hre & _).
    unfold run. rewrite (script_validated w _ cs Henv Hre). unfold main.
    rewrite (try_except_caught _ _ _ e _
               (eq_trans (live_body _ cs Hready)
                  (bind_Raise _ _ _ _ _
                     (while_True_live_fault _ 14 e k ds (warmed_up w cs) 1
                        eq_refl eq_refl (warmed_up_line cs) Hds Hbad)))
               He).
    rewrite (main_handler_run e (Client (Some cs))); [|done].
    cbn [trace with_trace ending_of]. by rewrite <- !app_assoc. }
  rewrite Hrun. split; [done|]. cbn [snd].
  rewrite !messages_app, messages_live_prefix, messages_live.
  by rewrite app_nil_r.
Qed.

End Live.

Section LiveWitnesses.

Import Text App Spec Behaviour.

Lemma live_world_ready : live_ready live_world good_connection_string.
Proof.
  repeat split; try reflexivity;
    do 15 (destruct k as [|k]; [try reflexivity; by eexists|]); lia.
Defined.

Lemma fading_world_ready : live_ready fading_world good_connection_string.
Proof.
  repeat split; try reflexivity;
    do 15 (destruct k as [|k]; [try reflexivity; by eexists|]); lia.
Defined.

Lemma live_mode_warm_up_witness :
  run live_world 0 = (Running, live_prefix live_world good_connection_string).
Proof.
  apply (live_mode_warm_up live_world good_connection_string).
  exact live_world_ready.
Defined.

Lemma live_mode_formats_lines_in_order_witness :
  messages (snd (run live_world 2))
  = [reading "O" "1" ("0" +:+ String LF "");
     reading "O" "2" ("0" +:+ String LF "")].
Proof.
  apply (live_mode_formats_lines_in_order live_world good_connection_string
           [reading "O" "1" ("0" +:+ String LF "");
            reading "O" "2" ("0" +:+ String LF "")] live_world_ready).
  intros [|[|j]] d; simpl; intros [= <-]; vm_compute; reflexivity.
Defined.

Lemma live_mode_stops_at_first_bad_line_witness :
  messages (snd (run fading_world 7))
  = [reading "O" "1" ("0" +:+ String LF "");
     reading "O" "2" ("0" +:+ String LF "")].
Proof.
  apply (live_mode_stops_at_first_bad_line fading_world
           good_connection_string
           [reading "O" "1" ("0" +:+ String LF "");
            reading "O" "2" ("0" +:+ String LF "")] IndexError 4
           fading_world_ready).
  - intros [|[|j]] d; simpl; intros [= <-]; vm_compute; reflexivity.
  - vm_compute. reflexivity.
  - reflexivity.
Defined.

End LiveWitnesses.

(** ** The line of a serial read *)

Section SerialLine.

Import Text App Spec Behaviour.

Lemma bytes_world_ready : live_ready bytes_world good_connection_string.
Proof.
  repeat split; try reflexivity;
    do 15 (destruct k as [|k]; [try reflexivity; by eexists|]); lia.
Qed.

(** C10: the line that a serial read hands over is a byte string, and
    [data.split(",")] on a byte string raises [TypeError]: in live mode
    the first tick ends in the handler and no record is ever wrapped,
    however many ticks were to come.  The record that keeps the line feed
    in [tvoc], and that is wrapped and sent on, is what the same line
    gives when it arrives as text. *)
Theorem serial_line_of_bytes_is_never_formatted (k : nat) :
  serial_readline bytes_world 14 1
  = inr (PyBytes ("a,b,c" +:+ String LF ""))
  /\ format_message (PyBytes ("a,b,c" +:+ String LF "")) = inl TypeError
  /\ run bytes_world (S k)
     = (Exited 0,
        live_prefix bytes_world good_connection_string
        ++ [EReadline 14] ++ handler_events TypeError)
  /\ messages (snd (run bytes_world (S k))) = []
  /\ format_message (PyStr ("a,b,c" +:+ String LF ""))
     = inr (reading "a" "b" ("c" +:+ String LF ""))
  /\ messages (snd (run text_world 1))
     = [reading "a" "b" ("c" +:+ String LF "")].
Proof.
  assert (run bytes_world (S k)
          = (Exited 0,
             live_prefix bytes_world good_connection_string
             ++ [EReadline 14] ++ handler_events TypeError)) as Hrun.
  { pose proof bytes_world_ready as Hready.
    pose proof Hready as (Henv & Hre & _).
    unfold run.
    rewrite (script_validated bytes_world _ good_connection_string Henv Hre).
    unfold main.
    rewrite (try_except_caught _ _ _ TypeError _
               (eq_trans
                  (live_body bytes_world (S k) good_connection_string Hready)
                  (bind_Raise _ _ _ _ _
                     (while_True_live_fault bytes_world
                        (Client (Some good_connection_string)) 14 TypeError
                        k [] (warmed_up bytes_world good_connection_string)
                        1 eq_refl eq_refl eq_refl
                        ltac:(by intros [|j] d) eq_refl)))
               eq_refl).
    rewrite (main_handler_run TypeError
               (Client (Some good_connection_string))); [|done].
    cbn [trace with_trace ending_of flat_map]. by rewrite <- !app_assoc. }
  split; [reflexivity|]. split; [reflexivity|]. split; [exact Hrun|].
  split.
  - rewrite Hrun. cbn [snd].
    rewrite !messages_app, messages_live_prefix. reflexivity.
  - split; vm_compute; reflexivity.
Qed.

End SerialLine.
